(** * tracer-go: span lifecycle and header propagation

  A shallow embedding of [tracer.go] (package [tracergo]) and of the small
  part of the Go standard library and of the opentracing interfaces that
  its functions call, followed by the properties of the propagation
  protocol.

  Conventions.
  - A Go [string] is a [string] of bytes.
  - [http.Header] is [map[string][]string]: a [gmap string (list string)].
  - An interface value that may be [nil] ([opentracing.Span],
    [context.Context], [error]) is an [option].
  - The functions run in a state-and-panic monad over the process state
    [World] (installed tracer, started spans, logrus level and output). *)

From Stdlib Require Import NArith String Ascii.
From Stdlib Require Import Hexadecimal HexadecimalString HexadecimalN.
From stdpp Require Import base option list gmap strings fin_maps.

Local Open Scope string_scope.
Local Open Scope list_scope.

(** ** Go's [strings] package, on byte strings *)

Module Strings.

Definition isUpperByte (c : ascii) : bool :=
  ((65 <=? N_of_ascii c) && (N_of_ascii c <=? 90))%N.

Definition isLowerByte (c : ascii) : bool :=
  ((97 <=? N_of_ascii c) && (N_of_ascii c <=? 122))%N.

Definition lowerByte (c : ascii) : ascii :=
  if isUpperByte c then ascii_of_N (N_of_ascii c + 32) else c.

Definition upperByte (c : ascii) : ascii :=
  if isLowerByte c then ascii_of_N (N_of_ascii c - 32) else c.

(** [strings.ToLower] on the ASCII range, where it works byte by byte
    (header names are HTTP tokens, hence ASCII). *)
Fixpoint ToLower (s : string) : string :=
  match s with
  | EmptyString => EmptyString
  | String c r => String (lowerByte c) (ToLower r)
  end.

(** [strings.HasPrefix s prefix]. *)
Fixpoint HasPrefix (s prefix : string) : bool :=
  match prefix, s with
  | EmptyString, _ => true
  | String _ _, EmptyString => false
  | String p ps, String c cs => Ascii.eqb c p && HasPrefix cs ps
  end.

(** [strings.Contains s substr]: [substr] occurs at some offset of [s]. *)
Fixpoint Contains (s substr : string) : bool :=
  HasPrefix s substr ||
  match s with
  | EmptyString => false
  | String _ r => Contains r substr
  end.

End Strings.

(** ** [net/http]: headers and requests *)

(** A started span is referred to by its position in the span store of the
    process state; a Go value of type [opentracing.Span] is an
    [option Span], [None] being [nil]. *)
Abbreviation Span := nat.

(** [context.Context], reduced to the two values the package looks up: the
    active span of [opentracing.ContextWithSpan] and the span stored under
    [SpanContextKey] by the restful filter.  A Go value of type
    [context.Context] is an [option Context], [None] being [nil]. *)
Record Context := mkContext {
  activeSpan : option Span;
  restfulSpan : option Span
}.

Definition Background : Context :=
  {| activeSpan := None; restfulSpan := None |}.

Module Http.

(** [textproto.validHeaderFieldByte]: the token characters of RFC 7230. *)
Definition validHeaderFieldByte (c : ascii) : bool :=
  let n := N_of_ascii c in
  (((48 <=? n) && (n <=? 57)) || Strings.isUpperByte c || Strings.isLowerByte c
   || bool_decide (n ∈ [33; 35; 36; 37; 38; 39; 42; 43; 45; 46; 94; 95; 96; 124; 126]))%N.

Fixpoint validHeaderField (s : string) : bool :=
  match s with
  | EmptyString => true
  | String c r => validHeaderFieldByte c && validHeaderField r
  end.

(** The rewriting loop of [textproto.canonicalMIMEHeaderKey]: upper case
    for the first letter and after each dash, lower case elsewhere. *)
Fixpoint canonicalLoop (upper : bool) (s : string) : string :=
  match s with
  | EmptyString => EmptyString
  | String c r =>
      let c' := if upper && Strings.isLowerByte c then Strings.upperByte c
                else if negb upper && Strings.isUpperByte c then Strings.lowerByte c
                else c in
      String c' (canonicalLoop (Ascii.eqb c' "-") r)
  end.

(** [textproto.CanonicalMIMEHeaderKey]: a key with a byte that is not a
    token character is returned unchanged. *)
Definition CanonicalMIMEHeaderKey (s : string) : string :=
  if validHeaderField s then canonicalLoop true s else s.

(** [http.Header], that is [map[string][]string]. *)
Abbreviation MIMEHeader := (gmap string (list string)).

(** [Header.Get]: first value under the canonical key, [""] if none. *)
Definition Header_Get (h : MIMEHeader) (key : string) : string :=
  match h !! CanonicalMIMEHeaderKey key with
  | Some (v :: _) => v
  | _ => ""
  end.

(** [Header.Set]: replaces all values under the canonical key. *)
Definition Header_Set (h : MIMEHeader) (key value : string) : MIMEHeader :=
  <[CanonicalMIMEHeaderKey key := [value]]> h.

(** The fields of [http.Request] that the package reads or writes.
    [ReqContext] is what [Request.Context()] returns, never [nil]. *)
Record Request := mkRequest {
  Method : string;
  Host : string;
  RequestURI : string;
  Header : MIMEHeader;
  ReqContext : Context
}.

(** The request after its header map has been mutated into [h]. *)
Definition withHeader (r : Request) (h : MIMEHeader) : Request :=
  {| Method := Method r; Host := Host r; RequestURI := RequestURI r;
     Header := h; ReqContext := ReqContext r |}.

End Http.

(** [restful.Request] wraps the [*http.Request]. *)
Module Restful.

Record Request := mkRequest { Request_ : Http.Request }.

End Restful.

(** ** The opentracing interfaces and the process state *)

Module Opentracing.

(** The propagable identity of a span (trace id, span id, sampling decision,
    baggage). *)
Record SpanContext := mkSpanContext {
  TraceID : N;
  SpanID : N;
  Sampled : bool;
  Baggage : list (string * string)
}.

(** The context of a span that no tracer started ([noopSpanContext]). *)
Definition noopSpanContext : SpanContext :=
  {| TraceID := 0; SpanID := 0; Sampled := false; Baggage := [] |}.

(** The state of a started span, as its methods build it up: [SetTag]
    appends to [Tags], [LogFields] appends one record (a list of fields) to
    [Logs], [SetBaggageItem] appends to the baggage of [SpanCtx], [Finish]
    increments [Finished].  [References] holds the [ChildOf] options the
    span was started with: a root span has none. *)
Record SpanData := mkSpanData {
  OperationName : string;
  References : list SpanContext;
  SpanCtx : SpanContext;
  Tags : list (string * string);
  Logs : list (list (string * string));
  Finished : nat
}.

(** The capabilities of the tracing backend the package uses.
    - [Extract] reads a span context from a header carrier, or fails with
      an error message.
    - [Inject] writes a span context to a carrier: [HTTPHeadersCarrier]
      offers only [Set], so an injection is the list of [Set(key, value)]
      calls it makes, with the error it returns, if any.
    - [NewContext parent n] is the identity the tracer gives to the [n]-th
      span it starts, below [parent] if there is one. *)
Record Tracer := mkTracer {
  Extract : Http.MIMEHeader → SpanContext + string;
  Inject : SpanContext → list (string * string) * option string;
  NewContext : option SpanContext → nat → SpanContext
}.

(** An argument of a logrus call: a string or a string map. *)
Inductive LogArg :=
  | ArgString (s : string)
  | ArgMap (m : gmap string string).

(** One emitted logrus entry: its level and its arguments. *)
Record LogEntry := mkLogEntry {
  EntryLevel : nat;
  EntryArgs : list LogArg
}.

(** The process state: the tracer installed by [SetGlobalTracer], the spans
    started so far (a [Span] is an index here), the logrus level and the
    entries logrus has emitted. *)
Record World := mkWorld {
  GlobalTracer : Tracer;
  Spans : list SpanData;
  LogLevel : nat;
  LogOutput : list LogEntry
}.

Definition withSpans (w : World) (sps : list SpanData) : World :=
  {| GlobalTracer := GlobalTracer w; Spans := sps;
     LogLevel := LogLevel w; LogOutput := LogOutput w |}.

Definition withOutput (w : World) (out : list LogEntry) : World :=
  {| GlobalTracer := GlobalTracer w; Spans := Spans w;
     LogLevel := LogLevel w; LogOutput := out |}.

(** A computation over the process state; [None] is a run-time panic. *)
Definition M (A : Type) : Type := World → option (A * World).

Definition ret {A} (a : A) : M A := λ w, Some (a, w).

Definition bind {A B} (m : M A) (k : A → M B) : M B :=
  λ w, match m w with
       | Some (a, w') => k a w'
       | None => None
       end.

Definition panic {A} : M A := λ _, None.

Definition gets {A} (f : World → A) : M A := λ w, Some (f w, w).

Definition modify (f : World → World) : M unit := λ w, Some (tt, f w).

End Opentracing.

Import Opentracing.

#[export] Instance M_ret : MRet M := @ret.
#[export] Instance M_bind : MBind M := λ A B k m, bind m k.

Module Logrus.

Definition ErrorLevel : nat := 2.
Definition InfoLevel : nat := 4.
Definition DebugLevel : nat := 5.

(** [logrus.GetLevel() >= lvl]. *)
Definition levelEnabled (lvl : nat) : M bool :=
  gets (λ w, bool_decide (lvl ≤ LogLevel w)%nat).

(** [logrus.Debug], [logrus.Info]: the entry is emitted when the level of
    the logger enables it. *)
Definition Log (lvl : nat) (args : list LogArg) : M unit :=
  λ w, if bool_decide (lvl ≤ LogLevel w)%nat
       then Some (tt, withOutput w (LogOutput w ++ [mkLogEntry lvl args]))
       else Some (tt, w).

Definition Debug (args : list LogArg) : M unit := Log DebugLevel args.
Definition Info (args : list LogArg) : M unit := Log InfoLevel args.

End Logrus.

(** The methods of [opentracing.Span] and the package-level functions of
    opentracing-go that [tracer.go] calls. *)
Module Ot.

Definition noopSpan : SpanData :=
  {| OperationName := ""; References := []; SpanCtx := noopSpanContext;
     Tags := []; Logs := []; Finished := 0 |}.

(** The state of span [sp]; a handle no [StartSpan] returned behaves as
    opentracing's [noopSpan]. *)
Definition spanData (w : World) (sp : Span) : SpanData :=
  default noopSpan (Spans w !! sp).

Definition updSpan (f : SpanData → SpanData) (sp : Span) : M unit :=
  modify (λ w, withSpans w (alter f sp (Spans w))).

Definition addTag (key value : string) (d : SpanData) : SpanData :=
  {| OperationName := OperationName d; References := References d;
     SpanCtx := SpanCtx d; Tags := Tags d ++ [(key, value)];
     Logs := Logs d; Finished := Finished d |}.

Definition addLogRecord (fields : list (string * string)) (d : SpanData) : SpanData :=
  {| OperationName := OperationName d; References := References d;
     SpanCtx := SpanCtx d; Tags := Tags d;
     Logs := Logs d ++ [fields]; Finished := Finished d |}.

Definition addBaggageItem (key value : string) (d : SpanData) : SpanData :=
  {| OperationName := OperationName d; References := References d;
     SpanCtx := {| TraceID := TraceID (SpanCtx d); SpanID := SpanID (SpanCtx d);
                   Sampled := Sampled (SpanCtx d);
                   Baggage := Baggage (SpanCtx d) ++ [(key, value)] |};
     Tags := Tags d; Logs := Logs d; Finished := Finished d |}.

Definition markFinished (d : SpanData) : SpanData :=
  {| OperationName := OperationName d; References := References d;
     SpanCtx := SpanCtx d; Tags := Tags d;
     Logs := Logs d; Finished := S (Finished d) |}.

(** [span.SetTag(key, value)]. *)
Definition SetTag (sp : Span) (key value : string) : M unit :=
  updSpan (addTag key value) sp.

(** [span.LogFields(fields...)]. *)
Definition LogFields (sp : Span) (fields : list (string * string)) : M unit :=
  updSpan (addLogRecord fields) sp.

(** [span.SetBaggageItem(key, value)]. *)
Definition SetBaggageItem (sp : Span) (key value : string) : M unit :=
  updSpan (addBaggageItem key value) sp.

(** [span.Finish()]. *)
Definition Finish (sp : Span) : M unit :=
  updSpan markFinished sp.

(** [span.Context()]. *)
Definition SpanContextOf (sp : Span) : M SpanContext :=
  gets (λ w, SpanCtx (spanData w sp)).

(** The span a tracer creates for [StartSpan(operationName, opts...)],
    [refs] being the contexts of the [ChildOf] options. *)
Definition newSpan (t : Tracer) (n : nat) (operationName : string)
    (refs : list SpanContext) : SpanData :=
  {| OperationName := operationName; References := refs;
     SpanCtx := NewContext t (head refs) n;
     Tags := []; Logs := []; Finished := 0 |}.

(** [opentracing.StartSpan(operationName, opts...)], on the global tracer:
    the new span is appended to the store and its handle returned. *)
Definition StartSpan (operationName : string) (refs : list SpanContext) : M Span :=
  λ w, let n := length (Spans w) in
       Some (n, withSpans w (Spans w ++ [newSpan (GlobalTracer w) n operationName refs])).

(** [opentracing.ContextWithSpan(ctx, span)]. *)
Definition ContextWithSpan (ctx : Context) (span : Span) : Context :=
  {| activeSpan := Some span; restfulSpan := restfulSpan ctx |}.

(** [opentracing.SpanFromContext(ctx)]. *)
Definition SpanFromContext (ctx : Context) : option Span := activeSpan ctx.

(** [opentracing.StartSpanFromContext(ctx, operationName)]: a child of the
    active span of [ctx] if there is one, a root span otherwise. *)
Definition StartSpanFromContext (ctx : Context) (operationName : string)
    : M (Span * Context) :=
  refs ← match SpanFromContext ctx with
         | Some parentSpan => sc ← SpanContextOf parentSpan; mret [sc]
         | None => mret []
         end;
  span ← StartSpan operationName refs;
  mret (span, ContextWithSpan ctx span).

(** [HTTPHeadersCarrier.Set] applied for each write of an injection. *)
Definition carrierWrites (h : Http.MIMEHeader) (writes : list (string * string))
    : Http.MIMEHeader :=
  foldl (λ acc kv, Http.Header_Set acc kv.1 kv.2) h writes.

(** [tracer.Inject(sc, HTTPHeaders, HTTPHeadersCarrier(h))]: the header map
    after the call and the returned error. *)
Definition InjectHeaders (t : Tracer) (sc : SpanContext) (h : Http.MIMEHeader)
    : Http.MIMEHeader * option string :=
  (carrierWrites h (Inject t sc).1, (Inject t sc).2).

(** [ext.HTTPUrl.Set] and [ext.HTTPMethod.Set]. *)
Definition HTTPUrl_Set (sp : Span) (v : string) : M unit := SetTag sp "http.url" v.
Definition HTTPMethod_Set (sp : Span) (v : string) : M unit := SetTag sp "http.method" v.

End Ot.

(** The order in which a [for ... range] loop visits a header map: Go leaves
    it unspecified, so it is any enumeration of the entries. *)
Class MapRange := {
  rangeOf : Http.MIMEHeader → list (string * list string);
  rangeOf_perm : ∀ h, rangeOf h ≡ₚ map_to_list h
}.

#[export] Instance mapRangeDefault : MapRange :=
  {| rangeOf := map_to_list; rangeOf_perm := λ h, reflexivity _ |}.

(** The package-level functions of jaeger-client-go that [tracer.go] calls
    directly. *)
Class JaegerLib := {
  ContextFromString : string → SpanContext + string
}.

(** ** Package [tracergo] *)

Module Tracergo.

Import Http.

Definition TraceIDKey : string := "X-Ab-TraceID".

Definition forwardHeaders : list string :=
  [ "x-request-id";
    "x-ot-span-context";
    "x-cloud-trace-context";
    "traceparent";
    "grpc-trace-bin" ].

(** AddTag to add tag in span if span is valid *)
Definition AddTag (span : option Span) (key value : string) : M unit :=
  match span with
  | Some sp => Ot.SetTag sp key value
  | None => mret tt
  end.

(** AddLog to add string log in span if span is valid *)
Definition AddLog (span : option Span) (key value : string) : M unit :=
  match span with
  | Some sp => Ot.LogFields sp [(key, value)]
  | None => mret tt
  end.

(** AddBaggage to add baggage in span if span is valid *)
Definition AddBaggage (span : option Span) (key value : string) : M unit :=
  match span with
  | Some sp => Ot.SetBaggageItem sp key value
  | None => mret tt
  end.

(** Finish to finish span if it is exist *)
Definition Finish (span : option Span) : M unit :=
  match span with
  | Some sp => Ot.Finish sp
  | None => mret tt
  end.

(** TraceError sends a log and a tag with Error into tracer.  A Go [error]
    is its message; [None] is the [nil] error. *)
Definition TraceError (span : option Span) (err : option string) : M unit :=
  match span, err with
  | Some _, Some msg =>
      AddLog span "error" msg;;
      AddTag span "error" "true"
  | _, _ => mret tt
  end.

(** TraceSQLQuery sends a log with SQL query into tracer *)
Definition TraceSQLQuery (span : option Span) (query : string) : M unit :=
  match span with
  | Some _ => if bool_decide (query ≠ "") then AddLog span "SQL" query else mret tt
  | None => mret tt
  end.

(** The loop that builds the logged header map (lines 118-123, 142-147 and
    185-190), over the entries in the order the [range] visits them.
    [val[0]] on an empty value list is an index-out-of-range panic. *)
Fixpoint redactLoop (entries : list (string * list string))
    (header : gmap string string) : option (gmap string string) :=
  match entries with
  | [] => Some header
  | (key, val) :: rest =>
      let key := Strings.ToLower key in
      if negb (Strings.Contains key "auth") then
        match val with
        | v0 :: _ => redactLoop rest (<[key := v0]> header)
        | [] => None
        end
      else redactLoop rest header
  end.

(** The block [if logrus.GetLevel() >= logrus.DebugLevel { ... }]. *)
Definition debugHeaders `{MapRange} (prefix : string) (h : MIMEHeader) : M unit :=
  enabled ← Logrus.levelEnabled Logrus.DebugLevel;
  if enabled : bool then
    match redactLoop (rangeOf h) ∅ with
    | Some header => Logrus.Debug [ArgString prefix; ArgMap header]
    | None => panic
    end
  else mret tt.

(** ExtractRequestHeader to extract SpanContext from request header *)
Definition ExtractRequestHeader (req : Restful.Request) : M (SpanContext + string) :=
  gets (λ w, Extract (GlobalTracer w) (Header (Restful.Request_ req))).

(** StartSpanFromContext start span from context if context != nil. *)
Definition StartSpanFromContext (ctx : option Context) (operationName : string)
    : M (option Span * option Context) :=
  match ctx with
  | Some c =>
      '(childSpan, childCtx) ← Ot.StartSpanFromContext c operationName;
      mret (Some childSpan, Some childCtx)
  | None => mret (None, ctx)
  end.

(** StartDBSpan start DBSpan from context. *)
Definition StartDBSpan (ctx : option Context) (operationName : string)
    : M (option Span * option Context) :=
  StartSpanFromContext ctx ("DB-" +:+ operationName).

Definition StartChildSpan (span : option Span) (name : string) : M (option Span) :=
  match span with
  | Some sp =>
      sc ← Ot.SpanContextOf sp;
      child ← Ot.StartSpan name [sc];
      mret (Some child)
  | None => mret None
  end.

Definition ChildSpanFromRemoteSpan `{JaegerLib} (rootCtx : option Context)
    (name spanContextStr : string) : M (option Span * option Context) :=
  match ContextFromString spanContextStr with
  | inl spanContext =>
      span ← Ot.StartSpan name [spanContext];
      mret (Some span, rootCtx)
  | inr _ => StartSpanFromContext rootCtx name
  end.

(** The steps of [StartSpan] and [StartSpanIfParentSpanExist] after the span
    is started (lines 167-174 and 204-211). *)
Definition tagRequestSpan (req : Restful.Request) (span : Span)
    : M (option Span * option Context) :=
  let r := Restful.Request_ req in
  Ot.HTTPMethod_Set span (Method r);;
  Ot.HTTPUrl_Set span (Host r +:+ RequestURI r);;
  (let abTraceID := Header_Get (Header r) TraceIDKey in
   if bool_decide (abTraceID ≠ "")
   then AddTag (Some span) TraceIDKey abTraceID
   else mret tt);;
  mret (Some span, Some (Ot.ContextWithSpan (ReqContext r) span)).

(** StartSpan to start a new child span from restful.Request *)
Definition StartSpan `{MapRange} (req : Restful.Request) (operationName : string)
    : M (option Span * option Context) :=
  debugHeaders "incoming header : " (Header (Restful.Request_ req));;
  r ← ExtractRequestHeader req;
  span ← match r with
         | inr err =>
             Logrus.Debug [ArgString "request has no tracing context: "; ArgString err];;
             Ot.StartSpan operationName []
         | inl spanContext => Ot.StartSpan operationName [spanContext]
         end;
  tagRequestSpan req span.

(** StartSpanIfParentSpanExist to start a new child span from
    restful.Request if it contain SpanContext *)
Definition StartSpanIfParentSpanExist `{MapRange} (req : Restful.Request)
    (operationName : string) : M (option Span * option Context) :=
  debugHeaders "incoming header : " (Header (Restful.Request_ req));;
  r ← ExtractRequestHeader req;
  match r with
  | inr _ => mret (None, None)
  | inl spanContext =>
      span ← Ot.StartSpan operationName [spanContext];
      tagRequestSpan req span
  end.

(** The loop over [forwardHeaders] (lines 106-110), from the inbound header
    map onto the outbound one. *)
Definition forwardLoop (incoming outgoing : MIMEHeader) : MIMEHeader :=
  foldl (λ out header,
           let value := Header_Get incoming header in
           if bool_decide (value ≠ "") then Header_Set out header value else out)
        outgoing forwardHeaders.

(** InjectTrace to inject request header with context from current span.
    The outbound request is mutated in place; the result carries its new
    state. *)
Definition InjectTrace `{MapRange} (ctx : option Context)
    (incomingReq : Restful.Request) (outgoingReq : Http.Request)
    : M (Http.Request * option Span * option Context) :=
  '(span, newCtx) ← StartSpanFromContext ctx "outgoing request";
  match span with
  | Some sp =>
      Ot.HTTPUrl_Set sp (Host outgoingReq +:+ RequestURI outgoingReq);;
      Ot.HTTPMethod_Set sp (Method outgoingReq);;
      sc ← Ot.SpanContextOf sp;
      tracer ← gets GlobalTracer;
      let injected := (Ot.InjectHeaders tracer sc (Header outgoingReq)).1 in
      let forwarded := forwardLoop (Header (Restful.Request_ incomingReq)) injected in
      debugHeaders "outgoing header : " forwarded;;
      let abTraceID := Header_Get (Header (Restful.Request_ incomingReq)) TraceIDKey in
      let final := if bool_decide (abTraceID ≠ "")
                   then Header_Set forwarded TraceIDKey abTraceID
                   else forwarded in
      mret (withHeader outgoingReq final, Some sp, newCtx)
  | None => mret (outgoingReq, None, None)
  end.

(** [InjectSpanIntoRequest]: the request after the call and the returned
    error. *)
Definition InjectSpanIntoRequest (span : option Span) (req : Http.Request)
    : M (Http.Request * option string) :=
  match span with
  | Some sp =>
      sc ← Ot.SpanContextOf sp;
      tracer ← gets GlobalTracer;
      let r := Ot.InjectHeaders tracer sc (Header req) in
      mret (withHeader req r.1, r.2)
  | None => mret (req, None)
  end.

(** GetSpanFromRestfulContext get crated by jaeger Filter span from the
    context.  [ctx.Value] on a [nil] context panics. *)
Definition GetSpanFromRestfulContext (ctx : option Context) : M (option Span) :=
  match ctx with
  | None => panic
  | Some c =>
      match restfulSpan c with
      | Some span => mret (Some span)
      | None =>
          Logrus.Info [ArgString "missed initialization of restful plugin jaeger.Filter"];;
          '(span, _) ← StartSpanFromContext ctx "unnamed";
          mret span
      end
  end.

End Tracergo.

(** ** The codec installed by [InitGlobalTracer] *)

Module Jaeger.

Import Http.

(** Lower-case hexadecimal, as [strconv.FormatUint(x, 16)] prints it. *)
Definition formatHex (n : N) : string :=
  NilZero.string_of_uint (N.to_hex_uint n).

(** [strconv.ParseUint(s, 16, _)] on lower-case digits. *)
Definition parseHex (s : string) : option N :=
  N.of_hex_uint <$> NilZero.uint_of_string s.

(** Modelled from the spec: the Header Codec of the tracing backend, which
    is not part of the repository ([InitGlobalTracer], lines 43-45, installs
    jaeger-client-go's Zipkin B3 propagator as injector and extractor for
    HTTP headers).  Injection writes the trace id, the span id and the
    sampling decision under the B3 header names. *)
Definition b3Inject (sc : SpanContext) : list (string * string) * option string :=
  ([ ("x-b3-traceid", formatHex (TraceID sc));
     ("x-b3-spanid", formatHex (SpanID sc));
     ("x-b3-sampled", if Sampled sc then "1" else "0") ],
   None).

Definition ErrSpanContextNotFound : string :=
  "opentracing: SpanContext not found in Extract carrier".

(** Modelled from the spec: extraction by the Header Codec; it fails with
    NotFound when no recognized header is present or a value is malformed. *)
Definition b3Extract (h : MIMEHeader) : SpanContext + string :=
  match parseHex (Header_Get h "x-b3-traceid"), parseHex (Header_Get h "x-b3-spanid") with
  | Some t, Some s =>
      if bool_decide (t = 0%N) then inr ErrSpanContextNotFound
      else inl {| TraceID := t; SpanID := s;
                  Sampled := bool_decide (Header_Get h "x-b3-sampled" = "1");
                  Baggage := [] |}
  | _, _ => inr ErrSpanContextNotFound
  end.

(** Modelled from the spec: the identity the backend gives to the [n]-th
    started span, which the repository leaves to jaeger-client-go: a fresh
    span id, and the trace id, sampling decision and baggage of the parent
    (a root span opens a new trace, sampled by the constant sampler). *)
Definition newContext (parent : option SpanContext) (n : nat) : SpanContext :=
  match parent with
  | Some p => {| TraceID := TraceID p; SpanID := N.of_nat (S n);
                 Sampled := Sampled p; Baggage := Baggage p |}
  | None => {| TraceID := N.of_nat (S n); SpanID := N.of_nat (S n);
               Sampled := true; Baggage := [] |}
  end.

(** Modelled from the spec: the tracer [InitGlobalTracer] installs, as far
    as the package uses it. *)
Definition tracer : Tracer :=
  {| Extract := b3Extract; Inject := b3Inject; NewContext := newContext |}.

(** Fields of a string separated by [":"]. *)
Fixpoint splitColon (s : string) : list string :=
  match s with
  | EmptyString => [EmptyString]
  | String c r =>
      if Ascii.eqb c ":" then EmptyString :: splitColon r
      else match splitColon r with
           | f :: fs => String c f :: fs
           | [] => [String c EmptyString]
           end
  end.

(** Modelled from the spec: the parser of a serialized context,
    [jaeger.ContextFromString], which is not part of the repository; it
    reads the form ["traceid:spanid:parentid:flags"] in hexadecimal, bit 0
    of the flags being the sampling decision.  Only the sample inputs use
    it: the properties hold for any parser. *)
Definition contextFromString (s : string) : SpanContext + string :=
  match splitColon s with
  | [t; sp; p; f] =>
      match parseHex t, parseHex sp, parseHex p, parseHex f with
      | Some t, Some sp, Some _, Some f =>
          inl {| TraceID := t; SpanID := sp; Sampled := N.odd f; Baggage := [] |}
      | _, _, _, _ => inr "String does not match tracer state format"
      end
  | _ => inr "String does not match tracer state format"
  end.

#[global] Instance lib : JaegerLib := {| ContextFromString := contextFromString |}.

End Jaeger.

(** ** Package [tracergo], continued: the functions that need the backend *)

(** [span.Context().(jaeger.SpanContext)] followed by [String()]: the
    serialized form of a span context, [None] when the context is not a
    jaeger context and the type assertion fails. *)
Class JaegerString := {
  ContextString : SpanContext → option string
}.

(** [jaeger.NewUDPTransport(hostPort, 0)]: [None] when the transport is
    created, the error message otherwise. *)
Class UDPDial := {
  NewUDPTransport : string → option string
}.

Module TracergoSetup.

(** The sender of a remote reporter. *)
Inductive Transport :=
  | HTTPTransport (endpoint : string)
  | UDPTransport (hostPort : string).

(** [jaeger.NewNullReporter()], or [jaeger.NewRemoteReporter(sender, ...)]
    with its sender ([None] is the [nil] sender left by a failed
    [NewUDPTransport]) and its flush interval in seconds. *)
Inductive Reporter :=
  | NullReporter
  | RemoteReporter (sender : option Transport) (bufferFlushInterval : nat).

(** The arguments [jaeger.NewTracer] is called with; the closer it returns
    closes the tracer so configured, and stands for it here. *)
Record Closer := mkCloser {
  ServiceName : string;
  ConstSampler : bool;
  TracerReporter : Reporter;
  ZipkinSharedRPCSpan : bool;
  PoolSpans : bool
}.

Definition withTracer (w : World) (t : Tracer) : World :=
  {| GlobalTracer := t; Spans := Spans w;
     LogLevel := LogLevel w; LogOutput := LogOutput w |}.

(** InitGlobalTracer initialize global tracer *)
Definition InitGlobalTracer `{UDPDial}
    (jaegerAgentHost jaegerCollectorEndpoint serviceName realm : string) : M Closer :=
  reporter ←
    (if bool_decide (jaegerAgentHost = "" ∧ jaegerCollectorEndpoint = "") then
       Logrus.Info [ArgString "Jaeger client configured to be silent"];;
       mret NullReporter
     else
       sender ←
         (if bool_decide (jaegerCollectorEndpoint ≠ "") then
            Logrus.Info [ArgString ("Jaeger client configured to use the collector: "
                                    +:+ jaegerCollectorEndpoint)];;
            mret (Some (HTTPTransport jaegerCollectorEndpoint))
          else
            sender ←
              match NewUDPTransport jaegerAgentHost with
              | Some err =>
                  Logrus.Log Logrus.ErrorLevel
                    [ArgString ("Jaeger transport initialization error: " +:+ err)];;
                  mret None
              | None => mret (Some (UDPTransport jaegerAgentHost))
              end;
            Logrus.Info [ArgString ("Jaeger client configured to use the agent: "
                                    +:+ jaegerAgentHost)];;
            mret sender);
       mret (RemoteReporter sender 1));
  modify (λ w, withTracer w Jaeger.tracer);;
  mret {| ServiceName := serviceName +:+ "." +:+ realm;
          ConstSampler := true;
          TracerReporter := reporter;
          ZipkinSharedRPCSpan := true;
          PoolSpans := false |}.

Definition GetSpanContextString `{JaegerString} (span : option Span) : M string :=
  match span with
  | Some sp =>
      spanContext ← Ot.SpanContextOf sp;
      match ContextString spanContext with
      | Some s => mret s
      | None => mret ""
      end
  | None => mret ""
  end.

End TracergoSetup.

(** Modelled from the spec: [jaeger.SpanContext.String], which is not part
    of the repository; it prints the form ["traceid:spanid:parentid:flags"]
    that [Jaeger.contextFromString] reads.  Only the sample inputs use it. *)
Definition jaegerContextString (sc : SpanContext) : option string :=
  Some (Jaeger.formatHex (TraceID sc) +:+ ":" +:+ Jaeger.formatHex (SpanID sc)
        +:+ ":0:" +:+ (if Sampled sc then "1" else "0")).

#[global] Instance jaegerString : JaegerString :=
  {| ContextString := jaegerContextString |}.

(** A dialer for which every agent address can be reached. *)
Definition udpAlwaysUp : UDPDial := {| NewUDPTransport := λ _, None |}.

(** A dialer for which no agent address resolves. *)
Definition udpAlwaysDown : UDPDial :=
  {| NewUDPTransport := λ _, Some "lookup failed: no such host" |}.

(** ** Notions used to state the properties *)

(** A name contains "auth" in some letter case. *)
Definition containsAuthAnyCase (k : string) : Prop :=
  ∃ pre mid post, k = pre +:+ mid +:+ post ∧ Strings.ToLower mid = "auth".

(** A header map whose debug rendering does not fault: every name that is
    kept has at least one value. *)
Definition loggable (h : Http.MIMEHeader) : Prop :=
  map_Forall (λ k vs, Strings.Contains (Strings.ToLower k) "auth" = true ∨ vs ≠ []) h.

(** The debug block of a call does not fault: it is skipped, or it runs on
    a loggable map. *)
Definition debugSafe (w : World) (h : Http.MIMEHeader) : Prop :=
  (LogLevel w < Logrus.DebugLevel)%nat ∨ loggable h.

(** The [ChildOf] references [opentracing.StartSpanFromContext] derives from
    a context. *)
Definition parentRefs (w : World) (c : Context) : list SpanContext :=
  match activeSpan c with
  | Some p => [SpanCtx (Ot.spanData w p)]
  | None => []
  end.

(** The outbound header map after the injection step of [InjectTrace]:
    the context injected is the one of the span just started. *)
Definition injectedHeaders (w : World) (c : Context) (outgoing : Http.MIMEHeader) : Http.MIMEHeader :=
  Ot.carrierWrites outgoing
    (Inject (GlobalTracer w)
       (NewContext (GlobalTracer w) (head (parentRefs w c)) (length (Spans w)))).1.

(** The outbound header map [InjectTrace] leaves behind when it has a span. *)
Definition outboundHeaders (w : World) (c : Context) (incoming outgoing : Http.MIMEHeader)
    : Http.MIMEHeader :=
  let forwarded := Tracergo.forwardLoop incoming (injectedHeaders w c outgoing) in
  if bool_decide (Http.Header_Get incoming Tracergo.TraceIDKey ≠ "")
  then Http.Header_Set forwarded Tracergo.TraceIDKey (Http.Header_Get incoming Tracergo.TraceIDKey)
  else forwarded.

(** The span [InjectTrace] starts, with its two tags. *)
Definition outgoingSpan (w : World) (c : Context) (outgoingReq : Http.Request) : SpanData :=
  Ot.addTag "http.method" (Http.Method outgoingReq)
    (Ot.addTag "http.url" (Http.Host outgoingReq +:+ Http.RequestURI outgoingReq)
       (Ot.newSpan (GlobalTracer w) (length (Spans w)) "outgoing request" (parentRefs w c))).

(** What the debug block leaves in the logrus output: nothing new below
    debug level, else one entry with the prefix and the map the loop built;
    [None] when the loop faults. *)
Definition debugOutput `{MapRange} (prefix : string) (h : Http.MIMEHeader) (w : World)
    : option (list LogEntry) :=
  if bool_decide (Logrus.DebugLevel ≤ LogLevel w)%nat then
    match Tracergo.redactLoop (rangeOf h) ∅ with
    | Some m => Some (LogOutput w ++
                      [mkLogEntry Logrus.DebugLevel [ArgString prefix; ArgMap m]])
    | None => None
    end
  else Some (LogOutput w).

(** The span [StartSpan] and [StartSpanIfParentSpanExist] start, with its
    tags. *)
Definition requestSpan (w : World) (req : Restful.Request) (operationName : string)
    (refs : list SpanContext) : SpanData :=
  let r := Restful.Request_ req in
  let tagged :=
    Ot.addTag "http.url" (Http.Host r +:+ Http.RequestURI r)
      (Ot.addTag "http.method" (Http.Method r)
         (Ot.newSpan (GlobalTracer w) (length (Spans w)) operationName refs)) in
  if bool_decide (Http.Header_Get (Http.Header r) Tracergo.TraceIDKey ≠ "")
  then Ot.addTag Tracergo.TraceIDKey (Http.Header_Get (Http.Header r) Tracergo.TraceIDKey) tagged
  else tagged.

(** [m] renders the header map [h] without the names that contain "auth":
    no such name has an entry; every other name has one, under its
    lower-cased form, holding the first value of a header with that
    lower-cased name (of that very header when no other name of [h] differs
    from it by letter case only); and [m] has no other entry. *)
Definition redactedView (h : Http.MIMEHeader) (m : gmap string string) : Prop :=
  (∀ k, containsAuthAnyCase k → m !! Strings.ToLower k = None)
  ∧ (∀ k vs, h !! k = Some vs → ¬ containsAuthAnyCase k →
       ∃ k' v vs', h !! k' = Some (v :: vs')
                   ∧ Strings.ToLower k' = Strings.ToLower k
                   ∧ m !! Strings.ToLower k = Some v)
  ∧ (∀ k vs, h !! k = Some vs → ¬ containsAuthAnyCase k →
       (∀ k', is_Some (h !! k') → Strings.ToLower k' = Strings.ToLower k → k' = k) →
       is_Some (head vs) ∧ m !! Strings.ToLower k = head vs)
  ∧ (∀ key v, m !! key = Some v →
       ∃ k vs, h !! k = Some (v :: vs) ∧ Strings.ToLower k = key
               ∧ ¬ containsAuthAnyCase k).

(** ** Sample process states and requests *)

(** A process with the B3 tracer installed, no span started yet, logging at
    debug level. *)
Definition exWorld : World :=
  {| GlobalTracer := Jaeger.tracer; Spans := [];
     LogLevel := Logrus.DebugLevel; LogOutput := [] |}.

(** The same process after a handler has started one root span, logging at
    info level. *)
Definition exLiveWorld : World :=
  {| GlobalTracer := Jaeger.tracer;
     Spans := [Ot.newSpan Jaeger.tracer 0 "handler" []];
     LogLevel := Logrus.InfoLevel; LogOutput := [] |}.

(** An inbound request with a request id, an application trace id and
    credentials, and no tracer header. *)
Definition exInbound : Restful.Request :=
  Restful.mkRequest
    (Http.mkRequest "GET" "orders.internal" "/v1/orders/42"
       (<["X-Request-Id" := ["abc123"]]>
          (<["X-Ab-Traceid" := ["T1"]]>
             (<["Authorization" := ["Bearer s3cr3t"]]> ∅)))
       Background).

(** An inbound request whose [x-request-id] header is present with an
    empty value, and whose [traceparent] header has two values. *)
Definition exInboundEmpty : Restful.Request :=
  Restful.mkRequest
    (Http.mkRequest "GET" "orders.internal" "/v1/orders/42"
       (<["X-Request-Id" := [""]]>
          (<["Traceparent" := ["00-aa-bb-01"; "00-cc-dd-01"]]> ∅))
       Background).

(** The outbound request a handler is about to send. *)
Definition exOutbound : Http.Request :=
  Http.mkRequest "POST" "billing.internal" "/v1/charges"
    (<["Content-Type" := ["application/json"]]>
       (<["Proxy-Authorization" := ["Basic abc"]]> ∅))
    Background.

(** ** Notions for the further properties *)

(** The six operations of the façade on span [sp]. *)
Definition facadeOps (sp : Span) (key value query : string) (err : option string)
    : list (M unit) :=
  [ Tracergo.AddTag (Some sp) key value;
    Tracergo.AddLog (Some sp) key value;
    Tracergo.AddBaggage (Some sp) key value;
    Tracergo.Finish (Some sp);
    Tracergo.TraceError (Some sp) err;
    Tracergo.TraceSQLQuery (Some sp) query ].

(** From [w] to [w'] nothing has changed but, possibly, what span [sp] has
    recorded: the same tracer, the same logrus state, as many spans, every
    other span as it was, and [sp] with its name, references and identity
    (trace id, span id, sampling decision). *)
Definition onlySpanTouched (sp : Span) (w w' : World) : Prop :=
  GlobalTracer w' = GlobalTracer w
  ∧ LogLevel w' = LogLevel w ∧ LogOutput w' = LogOutput w
  ∧ length (Spans w') = length (Spans w)
  ∧ (∀ j, j ≠ sp → Spans w' !! j = Spans w !! j)
  ∧ OperationName (Ot.spanData w' sp) = OperationName (Ot.spanData w sp)
  ∧ References (Ot.spanData w' sp) = References (Ot.spanData w sp)
  ∧ TraceID (SpanCtx (Ot.spanData w' sp)) = TraceID (SpanCtx (Ot.spanData w sp))
  ∧ SpanID (SpanCtx (Ot.spanData w' sp)) = SpanID (SpanCtx (Ot.spanData w sp))
  ∧ Sampled (SpanCtx (Ot.spanData w' sp)) = Sampled (SpanCtx (Ot.spanData w sp)).

(** A range order that visits the entries the other way round. *)
Definition mapRangeReverse : MapRange :=
  {| rangeOf := λ h, reverse (map_to_list h);
     rangeOf_perm := λ h, reverse_Permutation (map_to_list h) |}.

(** A header map, written key by key, that has two names differing by
    letter case only. *)
Definition exCollidingHeader : Http.MIMEHeader :=
  <["Foo" := ["1"]]> (<["foo" := ["2"]]> ∅).

(** An inbound request that carries the B3 headers of a parent span. *)
Definition exInboundTraced : Restful.Request :=
  Restful.mkRequest
    (Http.mkRequest "GET" "orders.internal" "/healthz"
       (<["X-B3-Traceid" := ["1f"]]>
          (<["X-B3-Spanid" := ["2a"]]>
             (<["X-B3-Sampled" := ["1"]]> ∅)))
       Background).

(** An inbound request with a header that has no value at all. *)
Definition exInboundNoValue : Restful.Request :=
  Restful.mkRequest
    (Http.mkRequest "GET" "orders.internal" "/v1/orders/42"
       (<["X-Request-Id" := []]> ∅)
       Background).

(** * Properties *)

Example canonical_request_id :
  Http.CanonicalMIMEHeaderKey "x-request-id" = "X-Request-Id".
Proof. vm_compute. reflexivity. Qed.

Example canonical_trace_id :
  Http.CanonicalMIMEHeaderKey "X-Ab-TraceID" = "X-Ab-Traceid".
Proof. vm_compute. reflexivity. Qed.

Example canonical_invalid :
  Http.CanonicalMIMEHeaderKey "x bad" = "x bad".
Proof. vm_compute. reflexivity. Qed.

Example contains_auth :
  Strings.Contains (Strings.ToLower "X-AUTHorization") "auth" = true.
Proof. vm_compute. reflexivity. Qed.

Import Http Tracergo.

(** ** Strings *)

Lemma ToLower_app (a b : string) :
  Strings.ToLower (a +:+ b) = Strings.ToLower a +:+ Strings.ToLower b.
Proof. induction a as [|c a IH]; simpl; [done|]. by rewrite IH. Qed.

Lemma ToLower_split (k a b : string) :
  Strings.ToLower k = a +:+ b →
  ∃ k1 k2, k = k1 +:+ k2 ∧ Strings.ToLower k1 = a ∧ Strings.ToLower k2 = b.
Proof.
  revert k. induction a as [|c a IH]; intros k Hk; simpl in Hk.
  - by exists EmptyString, k.
  - destruct k as [|c' k]; simpl in Hk; [done|].
    injection Hk as Hc Hr. destruct (IH _ Hr) as (k1 & k2 & -> & H1 & H2).
    exists (String c' k1), k2. simpl. by rewrite Hc, H1.
Qed.

Lemma HasPrefix_spec (s p : string) :
  Strings.HasPrefix s p = true ↔ ∃ post, s = p +:+ post.
Proof.
  revert s. induction p as [|c p IH]; intros [|c' s]; simpl.
  - split; [intros _; by exists EmptyString|done].
  - split; [intros _; by exists (String c' s)|done].
  - split; [done|]. by intros [post ?].
  - rewrite andb_true_iff, IH. split.
    + intros [Hc [post ->]]. apply Ascii.eqb_eq in Hc as ->. by exists post.
    + intros [post [= -> ->]]. split; [apply Ascii.eqb_refl|by exists post].
Qed.

Lemma Contains_eq (s sub : string) :
  Strings.Contains s sub =
  Strings.HasPrefix s sub ||
  match s with EmptyString => false | String _ r => Strings.Contains r sub end.
Proof. by destruct s. Qed.

Lemma Contains_spec (s sub : string) :
  Strings.Contains s sub = true ↔ ∃ pre post, s = pre +:+ sub +:+ post.
Proof.
  induction s as [|c s IH]; rewrite Contains_eq.
  - rewrite orb_false_r, HasPrefix_spec. split.
    + intros [post ->]. by exists EmptyString, post.
    + intros (pre & post & Hs). destruct pre; simpl in Hs; [by exists post|done].
  - rewrite orb_true_iff, HasPrefix_spec, IH. split.
    + intros [[post ->]|(pre & post & ->)].
      * by exists EmptyString, post.
      * by exists (String c pre), post.
    + intros (pre & post & Hs). destruct pre as [|c' pre]; simpl in Hs.
      * left. by exists post.
      * injection Hs as -> ->. right. by exists pre, post.
Qed.

Lemma Contains_auth_any_case (k : string) :
  Strings.Contains (Strings.ToLower k) "auth" = true ↔ containsAuthAnyCase k.
Proof.
  rewrite Contains_spec. split.
  - intros (pre & post & Hk).
    apply ToLower_split in Hk as (k1 & k2 & -> & _ & Hk).
    apply ToLower_split in Hk as (k3 & k4 & -> & Hmid & _).
    by exists k1, k3, k4.
  - intros (pre & mid & post & -> & Hmid).
    exists (Strings.ToLower pre), (Strings.ToLower post).
    by rewrite !ToLower_app, Hmid.
Qed.

(** ** The redaction loop *)

Lemma elem_of_rangeOf `{MapRange} (h : MIMEHeader) (k : string) (vs : list string) :
  (k, vs) ∈ rangeOf h ↔ h !! k = Some vs.
Proof. by rewrite (rangeOf_perm h), elem_of_map_to_list. Qed.

Lemma redactLoop_lookup entries acc m key :
  redactLoop entries acc = Some m →
  (m !! key = acc !! key ∧
   ∀ k vs, (k, vs) ∈ entries → Strings.ToLower k = key →
           Strings.Contains key "auth" = true)
  ∨ (∃ k v vs, (k, v :: vs) ∈ entries ∧ Strings.ToLower k = key ∧
               Strings.Contains key "auth" = false ∧ m !! key = Some v).
Proof.
  revert acc. induction entries as [|[k0 val0] rest IH]; intros acc Hrun.
  - injection Hrun as <-. left. split; [done|]. intros k vs Hin. by apply elem_of_nil in Hin.
  - simpl in Hrun.
    destruct (Strings.Contains (Strings.ToLower k0) "auth") eqn:Hauth; simpl in Hrun.
    + destruct (IH _ Hrun) as [[Heq Hno]|(k & v & vs & Hin & Hk & Hna & Hm)].
      * left. split; [done|]. intros k vs Hin Hk.
        apply elem_of_cons in Hin as [[= -> ->]|Hin]; [by rewrite <- Hk|by eapply Hno].
      * right. exists k, v, vs. split_and!; try done. by apply elem_of_cons; right.
    + destruct val0 as [|v0 vs0]; [done|].
      destruct (IH _ Hrun) as [[Heq Hno]|(k & v & vs & Hin & Hk & Hna & Hm)].
      * destruct (decide (Strings.ToLower k0 = key)) as [Hk0|Hk0].
        -- right. exists k0, v0, vs0. split_and!; [by apply elem_of_cons; left|done|by rewrite <- Hk0|].
           by rewrite Heq, <- Hk0, lookup_insert_eq.
        -- left. split; [by rewrite Heq, lookup_insert_ne|].
           intros k vs Hin Hk.
           apply elem_of_cons in Hin as [[= -> ->]|Hin]; [done|by eapply Hno].
      * right. exists k, v, vs. split_and!; try done. by apply elem_of_cons; right.
Qed.

Lemma redactLoop_is_Some entries acc :
  is_Some (redactLoop entries acc) ↔
  ∀ k, Strings.Contains (Strings.ToLower k) "auth" = false → (k, []) ∉ entries.
Proof.
  revert acc. induction entries as [|[k0 val0] rest IH]; intros acc; simpl.
  - split; [|by eauto]. intros _ k _ Hin. by apply elem_of_nil in Hin.
  - destruct (Strings.Contains (Strings.ToLower k0) "auth") eqn:Hauth; simpl.
    + rewrite IH. split; intros Hall k Hk Hin.
      * apply elem_of_cons in Hin as [[= -> <-]|Hin]; [congruence|by eapply Hall].
      * eapply Hall; [done|]. by apply elem_of_cons; right.
    + destruct val0 as [|v0 vs0].
      * split; [by intros [? ?]|]. intros Hall. destruct (Hall k0 Hauth). by apply elem_of_cons; left.
      * rewrite IH. split; intros Hall k Hk Hin.
        -- apply elem_of_cons in Hin as [[=]|Hin]. by eapply Hall.
        -- eapply Hall; [done|]. by apply elem_of_cons; right.
Qed.

(** ** Header maps and the forwarding loop *)

Lemma loggable_Set h k v : loggable h → loggable (Header_Set h k v).
Proof.
  intros Hh. apply map_Forall_insert_2; [by right|done].
Qed.

Lemma loggable_lookup (h : MIMEHeader) (k : string) :
  loggable h → Strings.Contains (Strings.ToLower k) "auth" = false → h !! k ≠ Some [].
Proof. intros Hh Hk Hnil. destruct (Hh _ _ Hnil); congruence. Qed.

Lemma loggable_carrierWrites h writes : loggable h → loggable (Ot.carrierWrites h writes).
Proof.
  revert h. induction writes as [|[k v] ws IH]; intros h Hh; [done|].
  apply IH. by apply loggable_Set.
Qed.

Lemma forward_loggable incoming hs out :
  loggable out →
  loggable (foldl (λ out header,
                     let value := Header_Get incoming header in
                     if bool_decide (value ≠ "") then Header_Set out header value else out)
                  out hs).
Proof.
  revert out. induction hs as [|h hs IH]; intros out Hout; [done|].
  apply IH. simpl. case_bool_decide; [by apply loggable_Set|done].
Qed.

Lemma Header_Get_canonical h k1 k2 :
  CanonicalMIMEHeaderKey k1 = CanonicalMIMEHeaderKey k2 → Header_Get h k1 = Header_Get h k2.
Proof. unfold Header_Get. by intros ->. Qed.

Lemma forward_copied incoming hs out h :
  h ∈ hs → Header_Get incoming h ≠ "" →
  foldl (λ out header,
           let value := Header_Get incoming header in
           if bool_decide (value ≠ "") then Header_Set out header value else out)
        out hs !! CanonicalMIMEHeaderKey h = Some [Header_Get incoming h].
Proof.
  intros Hin Hval. revert Hin. induction hs as [|x hs IH] using rev_ind.
  - intros Hin. by apply elem_of_nil in Hin.
  - intros Hin. rewrite foldl_app. simpl.
    destruct (decide (CanonicalMIMEHeaderKey x = CanonicalMIMEHeaderKey h)) as [Heq|Hne].
    + rewrite (Header_Get_canonical _ _ _ Heq).
      rewrite bool_decide_true by done. unfold Header_Set.
      by rewrite Heq, lookup_insert_eq.
    + assert (h ∈ hs) as Hin'.
      { apply elem_of_app in Hin as [?|Hin]; [done|].
        apply list_elem_of_singleton in Hin. by subst. }
      case_bool_decide; [|by apply IH].
      unfold Header_Set. rewrite lookup_insert_ne by done. by apply IH.
Qed.

Lemma forward_untouched incoming hs out K :
  (∀ h, h ∈ hs → CanonicalMIMEHeaderKey h = K → Header_Get incoming h = "") →
  foldl (λ out header,
           let value := Header_Get incoming header in
           if bool_decide (value ≠ "") then Header_Set out header value else out)
        out hs !! K = out !! K.
Proof.
  revert out. induction hs as [|x hs IH]; intros out Hall; [done|].
  simpl. rewrite IH.
  - case_bool_decide as Hv; [|done]. unfold Header_Set.
    apply lookup_insert_ne. intros HK. apply Hv, (Hall x); [by left|done].
  - intros h Hin. apply Hall. by right.
Qed.

(** ** Running the functions *)

Lemma alter_app_last {A} (f : A → A) (l : list A) (x : A) :
  alter f (length l) (l ++ [x]) = l ++ [f x].
Proof. induction l as [|y l IH]; [done|]. simpl. f_equal. apply IH. Qed.

Lemma lookup_app_last {A} (l : list A) (x : A) : (l ++ [x]) !! length l = Some x.
Proof. by rewrite lookup_app_r, Nat.sub_diag. Qed.

Lemma withOutput_id (w : World) : withOutput w (LogOutput w) = w.
Proof. by destruct w. Qed.

Lemma debugHeaders_run `{MapRange} (prefix : string) (h : MIMEHeader) (w : World) :
  debugHeaders prefix h w =
  match debugOutput prefix h w with
  | Some out => Some (tt, withOutput w out)
  | None => None
  end.
Proof.
  unfold debugHeaders, debugOutput, Logrus.levelEnabled, gets, mbind, M_bind, bind.
  case_bool_decide as Hl; [|by rewrite withOutput_id].
  destruct (redactLoop _ _); [|done].
  unfold Logrus.Debug, Logrus.Log. by rewrite bool_decide_true.
Qed.

#[local] Arguments forwardLoop : simpl never.
#[local] Arguments Ot.carrierWrites : simpl never.
#[local] Arguments Header_Get : simpl never.
#[local] Arguments Header_Set : simpl never.
#[local] Arguments debugHeaders : simpl never.

Ltac run_monad :=
  unfold mbind, M_bind, bind, mret, M_ret, ret, gets, modify, panic.

Lemma spanData_last (w : World) (l : list SpanData) (d : SpanData) :
  Ot.spanData (withSpans w (l ++ [d])) (length l) = d.
Proof. unfold Ot.spanData. simpl. by rewrite lookup_app_last. Qed.

Lemma StartSpanFromContext_run (c : Context) (op : string) (w : World) :
  StartSpanFromContext (Some c) op w =
  Some ((Some (length (Spans w)), Some (Ot.ContextWithSpan c (length (Spans w)))),
        withSpans w (Spans w ++
          [Ot.newSpan (GlobalTracer w) (length (Spans w)) op (parentRefs w c)])).
Proof.
  unfold StartSpanFromContext, Ot.StartSpanFromContext, Ot.SpanFromContext, parentRefs,
    Ot.SpanContextOf, Ot.StartSpan.
  run_monad. by destruct (activeSpan c).
Qed.

Ltac step := unfold mbind at 1, M_bind at 1, bind at 1.

Lemma SetTag_last (w : World) (l : list SpanData) (d : SpanData) (k v : string) :
  Ot.SetTag (length l) k v (withSpans w (l ++ [d])) =
  Some (tt, withSpans w (l ++ [Ot.addTag k v d])).
Proof.
  unfold Ot.SetTag, Ot.updSpan, modify, withSpans. simpl. by rewrite alter_app_last.
Qed.

Lemma debugOutput_safe `{MapRange} (prefix : string) (h : MIMEHeader) (w : World) :
  debugSafe w h → is_Some (debugOutput prefix h w).
Proof.
  intros Hsafe. unfold debugOutput. case_bool_decide as Hl; [|by eexists].
  destruct Hsafe as [Hlt|Hlog]; [unfold Logrus.DebugLevel in *; lia|].
  destruct (proj2 (redactLoop_is_Some (rangeOf h) ∅)) as [m ->]; [|by eexists].
  intros k Hk Hin. apply elem_of_rangeOf in Hin. by apply (loggable_lookup h k).
Qed.

Lemma InjectTrace_run `{MapRange} (c : Context) (inReq : Restful.Request)
    (outReq : Request) (w : World) :
  InjectTrace (Some c) inReq outReq w =
  match debugOutput "outgoing header : "
          (forwardLoop (Header (Restful.Request_ inReq))
             (injectedHeaders w c (Header outReq))) w with
  | Some out =>
      Some ((withHeader outReq
               (outboundHeaders w c (Header (Restful.Request_ inReq)) (Header outReq)),
             Some (length (Spans w)),
             Some (Ot.ContextWithSpan c (length (Spans w)))),
            withOutput (withSpans w (Spans w ++ [outgoingSpan w c outReq])) out)
  | None => None
  end.
Proof.
  unfold InjectTrace. step.
  rewrite StartSpanFromContext_run.
  unfold Ot.HTTPUrl_Set, Ot.HTTPMethod_Set.
  step. rewrite SetTag_last. step. rewrite SetTag_last.
  step. unfold Ot.SpanContextOf at 1, gets at 1. rewrite spanData_last.
  step. unfold gets at 1. simpl GlobalTracer.
  step. rewrite debugHeaders_run.
  match goal with |- context [debugOutput ?p ?h ?w'] =>
    change (debugOutput p h w') with (debugOutput p h w) end.
  unfold injectedHeaders. simpl SpanCtx.
  by destruct (debugOutput _ _ w).
Qed.

Lemma InjectTrace_safe `{MapRange} (c : Context) (inReq : Restful.Request)
    (outReq : Request) (w : World) :
  debugSafe w (Header outReq) →
  is_Some (debugOutput "outgoing header : "
             (forwardLoop (Header (Restful.Request_ inReq))
                (injectedHeaders w c (Header outReq))) w).
Proof.
  intros Hsafe. apply debugOutput_safe.
  destruct Hsafe as [Hlt|Hlog]; [by left|right].
  apply forward_loggable, loggable_carrierWrites, Hlog.
Qed.

Lemma alter_lookup_insert {A} (f : A → A) (l : list A) (i : nat) (x : A) :
  l !! i = Some x → alter f i l = <[i := f x]> l.
Proof.
  revert i. induction l as [|y l IH]; intros [|i] Hi; simplify_eq/=; [done|].
  f_equal. by apply IH.
Qed.

Lemma updSpan_live (f : SpanData → SpanData) (sp : Span) (d : SpanData) (w : World) :
  Spans w !! sp = Some d →
  Ot.updSpan f sp w = Some (tt, withSpans w (<[sp := f d]> (Spans w))).
Proof. intros Hd. unfold Ot.updSpan, modify. by rewrite (alter_lookup_insert _ _ _ _ Hd). Qed.

Lemma withSpans_id (w : World) : withSpans w (Spans w) = w.
Proof. by destruct w. Qed.

Lemma updSpan_dead (f : SpanData → SpanData) (sp : Span) (w : World) :
  Spans w !! sp = None → Ot.updSpan f sp w = Some (tt, w).
Proof.
  intros Hd. unfold Ot.updSpan, modify.
  assert (alter f sp (Spans w) = Spans w) as ->; [|by rewrite withSpans_id].
  apply list_eq. intros j. rewrite list_lookup_alter.
  case_decide; simplify_eq; [by rewrite Hd|done].
Qed.

(** ** The façade *)

(** C5. [TraceError] on a live span with a non-nil error appends exactly
    one log record, with the single field ["error"] holding the message of
    the error, and exactly one tag ["error" = "true"], and changes nothing
    else; with a nil error it changes nothing; and whatever the span and
    the error, it returns without a panic. *)
Theorem TraceError_records (w : World) :
  (∀ (sp : Span) (d : SpanData) (msg : string),
     Spans w !! sp = Some d →
     TraceError (Some sp) (Some msg) w =
     Some (tt, withSpans w
                 (<[sp := {| OperationName := OperationName d;
                             References := References d;
                             SpanCtx := SpanCtx d;
                             Tags := Tags d ++ [("error", "true")];
                             Logs := Logs d ++ [[("error", msg)]];
                             Finished := Finished d |}]> (Spans w))))
  ∧ (∀ span : option Span, TraceError span None w = Some (tt, w))
  ∧ (∀ (span : option Span) (err : option string), is_Some (TraceError span err w)).
Proof.
  split_and!.
  - intros sp d msg Hd. unfold TraceError, AddLog, AddTag, Ot.LogFields, Ot.SetTag.
    step. rewrite (updSpan_live _ _ _ _ Hd).
    rewrite (updSpan_live _ sp (Ot.addLogRecord [("error", msg)] d)).
    + simpl. by rewrite list_insert_insert_eq.
    + simpl. apply list_lookup_insert_eq. by eapply lookup_lt_Some.
  - by intros [sp|].
  - intros [sp|] [msg|]; by eexists.
Qed.

(** C4 (as amended). On a nil span each of the six operations returns
    without a panic and leaves the process state unchanged; so do
    [TraceSQLQuery] with an empty query and [TraceError] with a nil error
    on any span.  [AddTag], [AddLog] and [AddBaggage] do not test their
    value: on a live span an empty value is recorded like any other. *)
Theorem facade_noop (w : World) (key value query : string) (err : option string) :
  AddTag None key value w = Some (tt, w)
  ∧ AddLog None key value w = Some (tt, w)
  ∧ AddBaggage None key value w = Some (tt, w)
  ∧ Finish None w = Some (tt, w)
  ∧ TraceError None err w = Some (tt, w)
  ∧ TraceSQLQuery None query w = Some (tt, w)
  ∧ (∀ span : option Span, TraceSQLQuery span "" w = Some (tt, w))
  ∧ (∀ span : option Span, TraceError span None w = Some (tt, w))
  ∧ (∀ (sp : Span) (d : SpanData),
       Spans w !! sp = Some d →
       AddTag (Some sp) key "" w =
         Some (tt, withSpans w (<[sp := Ot.addTag key "" d]> (Spans w)))
       ∧ AddLog (Some sp) key "" w =
         Some (tt, withSpans w (<[sp := Ot.addLogRecord [(key, "")] d]> (Spans w)))
       ∧ AddBaggage (Some sp) key "" w =
         Some (tt, withSpans w (<[sp := Ot.addBaggageItem key "" d]> (Spans w)))).
Proof.
  split_and!; try done.
  - by intros [sp|].
  - by intros [sp|].
  - intros sp d Hd. unfold AddTag, AddLog, AddBaggage, Ot.SetTag, Ot.LogFields,
      Ot.SetBaggageItem. by rewrite !(updSpan_live _ _ _ _ Hd).
Qed.

(** ** Starting spans *)

(** C9. With a nil context [StartSpanFromContext] returns a nil span and
    the nil context and leaves the process state, hence the started spans,
    unchanged; so does [StartDBSpan], and so does [ChildSpanFromRemoteSpan]
    when the serialized context does not parse. *)
Theorem StartSpanFromContext_nil `{JaegerLib} (w : World) (name : string) :
  StartSpanFromContext None name w = Some ((None, None), w)
  ∧ StartDBSpan None name w = Some ((None, None), w)
  ∧ (∀ (s e : string),
       ContextFromString s = inr e →
       ChildSpanFromRemoteSpan None name s w = Some ((None, None), w)).
Proof.
  split_and!; [done|done|].
  intros s e Hparse. unfold ChildSpanFromRemoteSpan. by rewrite Hparse.
Qed.

(** C7. [ChildSpanFromRemoteSpan]: when the string parses, the result is a
    newly started span whose only reference is [ChildOf] the parsed
    context, together with the given context; when it does not parse, the
    result is that of [StartSpanFromContext] on the given context, which
    derives the span from the current span of that context (a nil span for
    a nil context).  In both cases the call returns: no error, no panic. *)
Theorem ChildSpanFromRemoteSpan_total `{JaegerLib} (w : World)
    (rootCtx : option Context) (name spanContextStr : string) :
  match ContextFromString spanContextStr with
  | inl spanContext =>
      ChildSpanFromRemoteSpan rootCtx name spanContextStr w =
      Some ((Some (length (Spans w)), rootCtx),
            withSpans w (Spans w ++
              [{| OperationName := name; References := [spanContext];
                  SpanCtx := NewContext (GlobalTracer w) (Some spanContext) (length (Spans w));
                  Tags := []; Logs := []; Finished := 0 |}]))
  | inr _ =>
      ChildSpanFromRemoteSpan rootCtx name spanContextStr w =
      StartSpanFromContext rootCtx name w
      ∧ match rootCtx with
        | Some c =>
            StartSpanFromContext rootCtx name w =
            Some ((Some (length (Spans w)), Some (Ot.ContextWithSpan c (length (Spans w)))),
                  withSpans w (Spans w ++
                    [{| OperationName := name; References := parentRefs w c;
                        SpanCtx := NewContext (GlobalTracer w) (head (parentRefs w c))
                                     (length (Spans w));
                        Tags := []; Logs := []; Finished := 0 |}]))
        | None => StartSpanFromContext rootCtx name w = Some ((None, None), w)
        end
  end.
Proof.
  unfold ChildSpanFromRemoteSpan.
  destruct (ContextFromString spanContextStr) as [sc|e]; [done|].
  split; [done|]. destruct rootCtx as [c|]; [|done].
  apply StartSpanFromContext_run.
Qed.

Lemma tagRequestSpan_run (req : Restful.Request) (w : World) (l : list SpanData)
    (d : SpanData) :
  tagRequestSpan req (length l) (withSpans w (l ++ [d])) =
  Some ((Some (length l),
         Some (Ot.ContextWithSpan (ReqContext (Restful.Request_ req)) (length l))),
        withSpans w (l ++
          [let tagged :=
             Ot.addTag "http.url"
               (Host (Restful.Request_ req) +:+ RequestURI (Restful.Request_ req))
               (Ot.addTag "http.method" (Method (Restful.Request_ req)) d) in
           if bool_decide (Header_Get (Header (Restful.Request_ req)) TraceIDKey ≠ "")
           then Ot.addTag TraceIDKey (Header_Get (Header (Restful.Request_ req)) TraceIDKey)
                  tagged
           else tagged])).
Proof.
  unfold tagRequestSpan, Ot.HTTPUrl_Set, Ot.HTTPMethod_Set.
  step. rewrite SetTag_last. step. rewrite SetTag_last. step.
  case_bool_decide; [|done]. unfold AddTag. by rewrite SetTag_last.
Qed.

Lemma StartSpan_started (operationName : string) (refs : list SpanContext) (w : World) :
  Ot.StartSpan operationName refs w =
  Some (length (Spans w),
        withSpans w (Spans w ++
          [Ot.newSpan (GlobalTracer w) (length (Spans w)) operationName refs])).
Proof. done. Qed.

Lemma Debug_run (args : list LogArg) (w : World) :
  Logrus.Debug args w =
  Some (tt, withOutput w
              (LogOutput w ++
               if bool_decide (Logrus.DebugLevel ≤ LogLevel w)%nat
               then [mkLogEntry Logrus.DebugLevel args] else [])).
Proof.
  unfold Logrus.Debug, Logrus.Log. case_bool_decide; [done|].
  by rewrite app_nil_r, withOutput_id.
Qed.

Lemma StartSpan_run `{MapRange} (w : World) (req : Restful.Request)
    (operationName : string) :
  StartSpan req operationName w =
  match debugOutput "incoming header : " (Header (Restful.Request_ req)) w with
  | Some out =>
      Some ((Some (length (Spans w)),
             Some (Ot.ContextWithSpan (ReqContext (Restful.Request_ req))
                     (length (Spans w)))),
            withOutput
              (withSpans w (Spans w ++
                 [requestSpan w req operationName
                    match Extract (GlobalTracer w) (Header (Restful.Request_ req)) with
                    | inl spanContext => [spanContext]
                    | inr _ => []
                    end]))
              (out ++
               match Extract (GlobalTracer w) (Header (Restful.Request_ req)) with
               | inl _ => []
               | inr e =>
                   if bool_decide (Logrus.DebugLevel ≤ LogLevel w)%nat
                   then [mkLogEntry Logrus.DebugLevel
                           [ArgString "request has no tracing context: "; ArgString e]]
                   else []
               end))
  | None => None
  end.
Proof.
  unfold StartSpan. step. rewrite debugHeaders_run.
  destruct (debugOutput _ _ w) as [out|]; [|done].
  step. unfold ExtractRequestHeader at 1, gets at 1. simpl GlobalTracer.
  destruct (Extract _ _) as [sc|e].
  - step. rewrite StartSpan_started. simpl Spans. simpl GlobalTracer.
    rewrite (tagRequestSpan_run req (withOutput w out)). by rewrite app_nil_r.
  - step. step. rewrite Debug_run.
    rewrite StartSpan_started. simpl Spans. simpl GlobalTracer.
    by rewrite (tagRequestSpan_run req (withOutput (withOutput w out) _)).
Qed.

Lemma StartSpanIfParentSpanExist_run `{MapRange} (w : World) (req : Restful.Request)
    (operationName : string) :
  StartSpanIfParentSpanExist req operationName w =
  match debugOutput "incoming header : " (Header (Restful.Request_ req)) w with
  | Some out =>
      match Extract (GlobalTracer w) (Header (Restful.Request_ req)) with
      | inl spanContext =>
          Some ((Some (length (Spans w)),
                 Some (Ot.ContextWithSpan (ReqContext (Restful.Request_ req))
                         (length (Spans w)))),
                withOutput
                  (withSpans w (Spans w ++ [requestSpan w req operationName [spanContext]]))
                  out)
      | inr _ => Some ((None, None), withOutput w out)
      end
  | None => None
  end.
Proof.
  unfold StartSpanIfParentSpanExist. step. rewrite debugHeaders_run.
  destruct (debugOutput _ _ w) as [out|]; [|done].
  step. unfold ExtractRequestHeader at 1, gets at 1. simpl GlobalTracer.
  destruct (Extract _ _) as [sc|e]; [|done].
  step. rewrite StartSpan_started. simpl Spans. simpl GlobalTracer.
  by rewrite (tagRequestSpan_run req (withOutput w out)).
Qed.


(** ** Debug logging *)

Lemma redactLoop_view `{MapRange} (h : MIMEHeader) (m : gmap string string) :
  redactLoop (rangeOf h) ∅ = Some m → redactedView h m.
Proof.
  intros Hrun.
  assert (∀ k vs, h !! k = Some vs → ¬ containsAuthAnyCase k →
            ∃ k' v vs', h !! k' = Some (v :: vs')
                        ∧ Strings.ToLower k' = Strings.ToLower k
                        ∧ m !! Strings.ToLower k = Some v) as Hkept.
  { intros k vs Hk Hna.
    destruct (redactLoop_lookup _ _ _ (Strings.ToLower k) Hrun)
      as [[_ Hno]|(k' & v & vs' & Hin & Hk' & _ & Hm)].
    - destruct Hna. apply Contains_auth_any_case.
      apply (Hno k vs); [by apply elem_of_rangeOf|done].
    - exists k', v, vs'. by rewrite <- elem_of_rangeOf. }
  split_and!.
  - intros k Hauth. apply Contains_auth_any_case in Hauth.
    destruct (redactLoop_lookup _ _ _ (Strings.ToLower k) Hrun)
      as [[-> _]|(k' & v & vs' & _ & _ & Hna & _)]; [done|congruence].
  - done.
  - intros k vs Hk Hna Huniq.
    destruct (Hkept k vs Hk Hna) as (k' & v & vs' & Hk' & Hlow & Hm).
    assert (k' = k) as -> by (apply Huniq; [by eexists|done]).
    rewrite Hk in Hk'. injection Hk' as ->. by split; [eexists|].
  - intros key v Hm.
    destruct (redactLoop_lookup _ _ _ key Hrun)
      as [[Heq _]|(k & v' & vs & Hin & Hk & Hna & Hm')].
    + by rewrite Hm in Heq.
    + exists k, vs. rewrite Hm in Hm'. injection Hm' as ->.
      split_and!; [by apply elem_of_rangeOf|done|].
      rewrite <- Contains_auth_any_case. congruence.
Qed.

Lemma debugOutput_view `{MapRange} (prefix : string) (h : MIMEHeader) (w : World) :
  (Logrus.DebugLevel ≤ LogLevel w)%nat → loggable h →
  ∃ m, debugOutput prefix h w =
         Some (LogOutput w ++ [mkLogEntry Logrus.DebugLevel [ArgString prefix; ArgMap m]])
       ∧ redactedView h m.
Proof.
  intros Hlevel Hlog. unfold debugOutput. rewrite bool_decide_true by done.
  destruct (redactLoop (rangeOf h) ∅) as [m|] eqn:Hrun.
  - exists m. split; [done|]. by apply redactLoop_view.
  - assert (is_Some (redactLoop (rangeOf h) ∅)) as [m Hm]; [|congruence].
    apply redactLoop_is_Some. intros k Hk Hin. apply elem_of_rangeOf in Hin.
    by apply (loggable_lookup h k).
Qed.

(** C8. At debug level, [StartSpan] and [StartSpanIfParentSpanExist] log
    the inbound header map, and [InjectTrace] logs the outbound header map
    as it stands after injection and forwarding, in the redacted rendering:
    a name containing "auth" in any letter case has no entry, whatever its
    values; every other header appears under its lower-cased name with its
    first value. *)
Theorem debug_log_omits_auth `{MapRange} (w : World) :
  (Logrus.DebugLevel ≤ LogLevel w)%nat →
  (∀ (req : Restful.Request) (operationName : string),
     loggable (Header (Restful.Request_ req)) →
     ∃ m r w' rest,
       StartSpan req operationName w = Some (r, w')
       ∧ LogOutput w' =
           LogOutput w ++
           mkLogEntry Logrus.DebugLevel [ArgString "incoming header : "; ArgMap m] :: rest
       ∧ redactedView (Header (Restful.Request_ req)) m)
  ∧ (∀ (req : Restful.Request) (operationName : string),
       loggable (Header (Restful.Request_ req)) →
       ∃ m r w',
         StartSpanIfParentSpanExist req operationName w = Some (r, w')
         ∧ LogOutput w' =
             LogOutput w ++
             [mkLogEntry Logrus.DebugLevel [ArgString "incoming header : "; ArgMap m]]
         ∧ redactedView (Header (Restful.Request_ req)) m)
  ∧ (∀ (c : Context) (incomingReq : Restful.Request) (outgoingReq : Request),
       loggable (Header outgoingReq) →
       ∃ m r w',
         InjectTrace (Some c) incomingReq outgoingReq w = Some (r, w')
         ∧ LogOutput w' =
             LogOutput w ++
             [mkLogEntry Logrus.DebugLevel [ArgString "outgoing header : "; ArgMap m]]
         ∧ redactedView
             (forwardLoop (Header (Restful.Request_ incomingReq))
                (injectedHeaders w c (Header outgoingReq)))
             m).
Proof.
  intros Hlevel. split_and!.
  - intros req op Hlog.
    destruct (debugOutput_view "incoming header : " _ w Hlevel Hlog) as (m & Hout & Hview).
    exists m. rewrite StartSpan_run, Hout. eexists _, _, _. split; [done|].
    split; [|done]. simpl. by rewrite <- app_assoc.
  - intros req op Hlog.
    destruct (debugOutput_view "incoming header : " _ w Hlevel Hlog) as (m & Hout & Hview).
    exists m. rewrite StartSpanIfParentSpanExist_run, Hout.
    destruct (Extract _ _); by eexists _, _.
  - intros c inReq outReq Hlog.
    destruct (debugOutput_view "outgoing header : "
                (forwardLoop (Header (Restful.Request_ inReq))
                   (injectedHeaders w c (Header outReq))) w Hlevel)
      as (m & Hout & Hview).
    { apply forward_loggable, loggable_carrierWrites, Hlog. }
    exists m. rewrite InjectTrace_run, Hout. by eexists _, _.
Qed.

(** ** Outbound propagation *)

Lemma forward_canonical_ne (name : string) :
  name ∈ forwardHeaders →
  CanonicalMIMEHeaderKey TraceIDKey ≠ CanonicalMIMEHeaderKey name.
Proof.
  unfold forwardHeaders. intros Hin.
  repeat (apply elem_of_cons in Hin as [->|Hin]; [by vm_compute|]).
  by apply elem_of_nil in Hin.
Qed.

Lemma outbound_forwarded (w : World) (c : Context) (incoming outgoing : MIMEHeader)
    (name : string) :
  name ∈ forwardHeaders → Header_Get incoming name ≠ "" →
  outboundHeaders w c incoming outgoing !! CanonicalMIMEHeaderKey name =
  Some [Header_Get incoming name].
Proof.
  intros Hin Hval. unfold outboundHeaders. simpl.
  case_bool_decide.
  - unfold Header_Set. rewrite lookup_insert_ne by by apply forward_canonical_ne.
    by apply forward_copied.
  - by apply forward_copied.
Qed.

Lemma outbound_other (w : World) (c : Context) (incoming outgoing : MIMEHeader)
    (K : string) :
  K ≠ CanonicalMIMEHeaderKey TraceIDKey →
  (∀ name, name ∈ forwardHeaders → CanonicalMIMEHeaderKey name = K →
           Header_Get incoming name = "") →
  outboundHeaders w c incoming outgoing !! K = injectedHeaders w c outgoing !! K.
Proof.
  intros HK Hnone. unfold outboundHeaders. simpl.
  case_bool_decide.
  - unfold Header_Set. rewrite lookup_insert_ne by done. by apply forward_untouched.
  - by apply forward_untouched.
Qed.

Lemma outbound_trace_id (w : World) (c : Context) (incoming outgoing : MIMEHeader) :
  Header_Get incoming TraceIDKey ≠ "" →
  outboundHeaders w c incoming outgoing !! CanonicalMIMEHeaderKey TraceIDKey =
  Some [Header_Get incoming TraceIDKey].
Proof.
  intros Hval. unfold outboundHeaders. simpl. rewrite bool_decide_true by done.
  unfold Header_Set. apply lookup_insert_eq.
Qed.

Lemma InjectTrace_result `{MapRange} (c : Context) (inReq : Restful.Request)
    (outReq : Request) (w : World) :
  debugSafe w (Header outReq) →
  ∃ w',
    InjectTrace (Some c) inReq outReq w =
    Some ((withHeader outReq
             (outboundHeaders w c (Header (Restful.Request_ inReq)) (Header outReq)),
           Some (length (Spans w)),
           Some (Ot.ContextWithSpan c (length (Spans w)))),
          w')
    ∧ GlobalTracer w' = GlobalTracer w
    ∧ Spans w' = Spans w ++ [outgoingSpan w c outReq]
    ∧ Ot.carrierWrites (Header outReq)
        (Inject (GlobalTracer w) (SpanCtx (Ot.spanData w' (length (Spans w))))).1
      = injectedHeaders w c (Header outReq).
Proof.
  intros Hsafe. destruct (InjectTrace_safe c inReq outReq w Hsafe) as [out Hout].
  rewrite InjectTrace_run, Hout. eexists. split; [done|]. split_and!; [done|done|].
  unfold Ot.spanData. simpl. by rewrite lookup_app_last.
Qed.

(** C1 (as amended). When [InjectTrace] is given a non-nil context, with
    or without a current span in it, and the first inbound value of
    [X-Ab-TraceID] is not empty, the outbound request ends up with exactly
    that value under [X-Ab-TraceID].  With a nil context [InjectTrace]
    returns the outbound request as it was given, with a nil span and a nil
    context: nothing is copied. *)
Theorem InjectTrace_trace_id `{MapRange} (c : Context) (incomingReq : Restful.Request)
    (outgoingReq : Request) (w : World) :
  debugSafe w (Header outgoingReq) →
  Header_Get (Header (Restful.Request_ incomingReq)) TraceIDKey ≠ "" →
  (∃ r span newCtx w',
      InjectTrace (Some c) incomingReq outgoingReq w = Some ((r, Some span, Some newCtx), w')
      ∧ Header r !! CanonicalMIMEHeaderKey TraceIDKey =
          Some [Header_Get (Header (Restful.Request_ incomingReq)) TraceIDKey]
      ∧ Header_Get (Header r) TraceIDKey =
          Header_Get (Header (Restful.Request_ incomingReq)) TraceIDKey)
  ∧ InjectTrace None incomingReq outgoingReq w = Some ((outgoingReq, None, None), w).
Proof.
  intros Hsafe Hval. split; [|done].
  destruct (InjectTrace_result c incomingReq outgoingReq w Hsafe) as (w' & Hrun & _).
  eexists _, _, _, _. split; [exact Hrun|]. simpl.
  unfold Header_Get at 2. by rewrite outbound_trace_id.
Qed.

(** C2 (as amended). When [InjectTrace] is given a non-nil context, so that
    it starts a span, the outbound headers it leaves are these: under each
    allow-listed name whose first inbound value is not empty, exactly that
    value; under every other name except [X-Ab-TraceID], which a later step
    sets, exactly what the tracer's injection left there (the header the
    outbound request came with, or the value the tracer wrote).  So an
    allow-listed header whose first inbound value is empty is not copied,
    and no other inbound header is copied by the forwarding loop. *)
Theorem InjectTrace_forwards_allow_list `{MapRange} (c : Context)
    (incomingReq : Restful.Request) (outgoingReq : Request) (w : World) :
  debugSafe w (Header outgoingReq) →
  ∃ r span newCtx w',
    InjectTrace (Some c) incomingReq outgoingReq w = Some ((r, Some span, Some newCtx), w')
    ∧ (∀ name,
         name ∈ forwardHeaders →
         Header_Get (Header (Restful.Request_ incomingReq)) name ≠ "" →
         Header r !! CanonicalMIMEHeaderKey name =
           Some [Header_Get (Header (Restful.Request_ incomingReq)) name])
    ∧ (∀ K,
         K ≠ CanonicalMIMEHeaderKey TraceIDKey →
         (∀ name, name ∈ forwardHeaders → CanonicalMIMEHeaderKey name = K →
                  Header_Get (Header (Restful.Request_ incomingReq)) name = "") →
         Header r !! K =
           Ot.carrierWrites (Header outgoingReq)
             (Inject (GlobalTracer w) (SpanCtx (Ot.spanData w' span))).1 !! K).
Proof.
  intros Hsafe.
  destruct (InjectTrace_result c incomingReq outgoingReq w Hsafe)
    as (w' & Hrun & _ & _ & Hinj).
  eexists _, _, _, _. split; [exact Hrun|]. simpl. split.
  - intros name Hin Hval. by apply outbound_forwarded.
  - intros K HK Hnone. rewrite Hinj. by apply outbound_other.
Qed.

(** C10. In [InjectTrace] with a non-nil context, an allow-listed header
    is forwarded only when its first inbound value is not empty, and then
    the outbound request holds that first value alone under the name:
    further inbound values are dropped and earlier outbound values are
    replaced.  When the first inbound value is empty, or the header is
    absent, the forwarding loop leaves the name as the injection left it. *)
Theorem forward_first_nonempty_value `{MapRange} (c : Context)
    (incomingReq : Restful.Request) (outgoingReq : Request) (w : World) (name : string) :
  debugSafe w (Header outgoingReq) →
  name ∈ forwardHeaders →
  ∃ r span newCtx w',
    InjectTrace (Some c) incomingReq outgoingReq w = Some ((r, Some span, Some newCtx), w')
    ∧ match Header (Restful.Request_ incomingReq) !! CanonicalMIMEHeaderKey name with
      | Some (v :: _) =>
          if bool_decide (v ≠ "")
          then Header r !! CanonicalMIMEHeaderKey name = Some [v]
          else Header r !! CanonicalMIMEHeaderKey name =
               Ot.carrierWrites (Header outgoingReq)
                 (Inject (GlobalTracer w) (SpanCtx (Ot.spanData w' span))).1
               !! CanonicalMIMEHeaderKey name
      | _ =>
          Header r !! CanonicalMIMEHeaderKey name =
          Ot.carrierWrites (Header outgoingReq)
            (Inject (GlobalTracer w) (SpanCtx (Ot.spanData w' span))).1
          !! CanonicalMIMEHeaderKey name
      end.
Proof.
  intros Hsafe Hin.
  destruct (InjectTrace_result c incomingReq outgoingReq w Hsafe)
    as (w' & Hrun & _ & _ & Hinj).
  eexists _, _, _, _. split; [exact Hrun|]. simpl. rewrite Hinj.
  assert (Header_Get (Header (Restful.Request_ incomingReq)) name = "" →
          outboundHeaders w c (Header (Restful.Request_ incomingReq)) (Header outgoingReq)
            !! CanonicalMIMEHeaderKey name =
          injectedHeaders w c (Header outgoingReq) !! CanonicalMIMEHeaderKey name) as Hskip.
  { intros Hempty. apply outbound_other.
    - intros Heq. by apply (forward_canonical_ne name).
    - intros name' _ Hcanon. by rewrite (Header_Get_canonical _ _ _ Hcanon). }
  pose proof (outbound_forwarded w c (Header (Restful.Request_ incomingReq))
                (Header outgoingReq) name Hin) as Hcopy.
  unfold Header_Get in Hskip, Hcopy.
  destruct (Header (Restful.Request_ incomingReq) !! CanonicalMIMEHeaderKey name)
    as [[|v vs]|]; [by apply Hskip|..|by apply Hskip].
  case_bool_decide as Hv; [by apply Hcopy|].
  apply Hskip. by destruct (decide (v = "")).
Qed.

(** ** The codec round trip *)

Lemma parseHex_formatHex (n : N) : Jaeger.parseHex (Jaeger.formatHex n) = Some n.
Proof.
  unfold Jaeger.parseHex, Jaeger.formatHex.
  pose proof (HexadecimalN.Unsigned.of_to n) as Hn.
  destruct (N.to_hex_uint n) as [| | | | | | | | | | | | | | | |] eqn:Hd;
    try (rewrite NilZero.usu by done; exact (f_equal Some Hn)).
  exact (f_equal Some Hn).
Qed.

Lemma Header_Get_Set_eq (h : MIMEHeader) (k v : string) :
  Header_Get (Header_Set h k v) k = v.
Proof. unfold Header_Get, Header_Set. by rewrite lookup_insert_eq. Qed.

Lemma Header_Get_Set_ne (h : MIMEHeader) (k k' v : string) :
  CanonicalMIMEHeaderKey k ≠ CanonicalMIMEHeaderKey k' →
  Header_Get (Header_Set h k v) k' = Header_Get h k'.
Proof. intros Hne. unfold Header_Get, Header_Set. by rewrite lookup_insert_ne. Qed.

Lemma b3_roundtrip (sc : SpanContext) (h : MIMEHeader) :
  TraceID sc ≠ 0%N →
  ∃ sc', Jaeger.b3Extract (Ot.carrierWrites h (Jaeger.b3Inject sc).1) = inl sc'
         ∧ TraceID sc' = TraceID sc ∧ SpanID sc' = SpanID sc
         ∧ Sampled sc' = Sampled sc.
Proof.
  intros Hvalid. unfold Jaeger.b3Inject, Ot.carrierWrites, Jaeger.b3Extract. simpl.
  rewrite (Header_Get_Set_ne _ "x-b3-sampled" "x-b3-traceid") by by vm_compute.
  rewrite (Header_Get_Set_ne _ "x-b3-spanid" "x-b3-traceid") by by vm_compute.
  rewrite (Header_Get_Set_ne _ "x-b3-sampled" "x-b3-spanid") by by vm_compute.
  rewrite !Header_Get_Set_eq, !parseHex_formatHex.
  rewrite bool_decide_false by done.
  eexists. split; [done|]. simpl. split_and!; [done|done|].
  by destruct (Sampled sc).
Qed.

(** C6. With the codec that [InitGlobalTracer] installs, injecting the
    context of a span whose trace id is valid (not zero) into the headers
    of a request with [InjectSpanIntoRequest], then extracting from those
    headers with [ExtractRequestHeader], succeeds and yields a context with
    the trace id and the span id of the span. *)
Theorem inject_extract_roundtrip (w : World) (span : Span) (req : Request) :
  GlobalTracer w = Jaeger.tracer →
  TraceID (SpanCtx (Ot.spanData w span)) ≠ 0%N →
  ∃ req' sc',
    InjectSpanIntoRequest (Some span) req w = Some ((req', None), w)
    ∧ ExtractRequestHeader (Restful.mkRequest req') w = Some (inl sc', w)
    ∧ TraceID sc' = TraceID (SpanCtx (Ot.spanData w span))
    ∧ SpanID sc' = SpanID (SpanCtx (Ot.spanData w span)).
Proof.
  intros Htracer Hvalid.
  destruct (b3_roundtrip (SpanCtx (Ot.spanData w span)) (Header req) Hvalid)
    as (sc' & Hextract & Htrace & Hspan & _).
  exists (withHeader req
            (Ot.carrierWrites (Header req)
               (Jaeger.b3Inject (SpanCtx (Ot.spanData w span))).1)), sc'.
  unfold InjectSpanIntoRequest, ExtractRequestHeader, Ot.SpanContextOf, Ot.InjectHeaders.
  run_monad. rewrite Htracer.
  change (Inject Jaeger.tracer) with Jaeger.b3Inject.
  change (Extract Jaeger.tracer) with Jaeger.b3Extract.
  cbn [Header withHeader Restful.Request_ fst snd]. by rewrite Hextract.
Qed.

(** ** The sample inputs *)

Lemma exOutbound_loggable : loggable (Header exOutbound).
Proof.
  unfold exOutbound. simpl.
  repeat (apply map_Forall_insert_2; [by right|]). apply map_Forall_empty.
Defined.

Lemma exInbound_loggable : loggable (Header (Restful.Request_ exInbound)).
Proof.
  unfold exInbound. simpl.
  repeat (apply map_Forall_insert_2; [by right|]). apply map_Forall_empty.
Defined.

(** The scenario of the specification: the root span of the inbound request
    carries the application trace id as a tag. *)
Example scenario_root_span :
  ∃ w', StartSpan exInbound "GET /v1/orders" exWorld =
          Some ((Some 0, Some {| activeSpan := Some 0; restfulSpan := None |}), w')
        ∧ Spans w' =
          [{| OperationName := "GET /v1/orders"; References := [];
              SpanCtx := {| TraceID := 1; SpanID := 1; Sampled := true; Baggage := [] |};
              Tags := [("http.method", "GET");
                       ("http.url", "orders.internal/v1/orders/42");
                       ("X-Ab-TraceID", "T1")];
              Logs := []; Finished := 0 |}].
Proof. eexists. split; [by vm_compute|done]. Qed.

(** The scenario of the specification, outbound side: the request id, the
    application trace id and freshly injected tracer headers. *)
Example scenario_outbound :
  ∃ r w', InjectTrace (Some Background) exInbound exOutbound exWorld =
            Some ((r, Some 0, Some {| activeSpan := Some 0; restfulSpan := None |}), w')
          ∧ Header r !! "X-Request-Id" = Some ["abc123"]
          ∧ Header r !! "X-Ab-Traceid" = Some ["T1"]
          ∧ Header r !! "X-B3-Traceid" = Some ["1"]
          ∧ Header r !! "X-B3-Spanid" = Some ["1"]
          ∧ Header r !! "X-B3-Sampled" = Some ["1"]
          ∧ Header r !! "Content-Type" = Some ["application/json"]
          ∧ Header r !! "Proxy-Authorization" = Some ["Basic abc"]
          ∧ Header r !! "Authorization" = None
          ∧ size (Header r) = 7.
Proof. eexists _, _. split; [by vm_compute|]. by vm_compute. Qed.

Example scenario_debug_log :
  ∃ r w', InjectTrace (Some Background) exInbound exOutbound exWorld = Some (r, w')
          ∧ LogOutput w' =
            [mkLogEntry Logrus.DebugLevel
               [ArgString "outgoing header : ";
                ArgMap (list_to_map
                          [("content-type", "application/json");
                           ("x-request-id", "abc123");
                           ("x-b3-traceid", "1");
                           ("x-b3-spanid", "1");
                           ("x-b3-sampled", "1")])]].
Proof. eexists _, _. split; by vm_compute. Qed.

Example contextFromString_ok :
  ContextFromString "1f:2a:0:1" =
  inl {| TraceID := 31; SpanID := 42; Sampled := true; Baggage := [] |}.
Proof. by vm_compute. Qed.

Example contextFromString_malformed :
  ContextFromString "not-a-context" = inr "String does not match tracer state format".
Proof. by vm_compute. Qed.

Example remote_child :
  ChildSpanFromRemoteSpan None "job" "1f:2a:0:1" exWorld =
  Some ((Some 0, None),
        withSpans exWorld
          [{| OperationName := "job";
              References := [{| TraceID := 31; SpanID := 42; Sampled := true; Baggage := [] |}];
              SpanCtx := {| TraceID := 31; SpanID := 1; Sampled := true; Baggage := [] |};
              Tags := []; Logs := []; Finished := 0 |}]).
Proof. by vm_compute. Qed.

(** ** The theorems at the sample inputs *)

Lemma InjectTrace_trace_id_witness :
  debugSafe exWorld (Header exOutbound)
  ∧ Header_Get (Header (Restful.Request_ exInbound)) TraceIDKey ≠ ""
  ∧ (∃ r span newCtx w',
        InjectTrace (Some Background) exInbound exOutbound exWorld =
          Some ((r, Some span, Some newCtx), w')
        ∧ Header r !! CanonicalMIMEHeaderKey TraceIDKey =
            Some [Header_Get (Header (Restful.Request_ exInbound)) TraceIDKey]
        ∧ Header_Get (Header r) TraceIDKey =
            Header_Get (Header (Restful.Request_ exInbound)) TraceIDKey)
  ∧ InjectTrace None exInbound exOutbound exWorld = Some ((exOutbound, None, None), exWorld).
Proof.
  assert (debugSafe exWorld (Header exOutbound)) as Hsafe
    by (right; exact exOutbound_loggable).
  assert (Header_Get (Header (Restful.Request_ exInbound)) TraceIDKey ≠ "") as Hval
    by (vm_compute; discriminate).
  split; [exact Hsafe|]. split; [exact Hval|].
  exact (InjectTrace_trace_id Background exInbound exOutbound exWorld Hsafe Hval).
Defined.

(** With a nil context the application trace id of the inbound request
    does not reach the outbound request. *)
Lemma InjectTrace_nil_context_drops_trace_id :
  Header_Get (Header (Restful.Request_ exInbound)) TraceIDKey = "T1"
  ∧ ¬ (∀ r span newCtx w',
         InjectTrace None exInbound exOutbound exWorld = Some ((r, span, newCtx), w') →
         Header_Get (Header r) TraceIDKey =
         Header_Get (Header (Restful.Request_ exInbound)) TraceIDKey).
Proof.
  split; [by vm_compute|].
  intros Hall. specialize (Hall _ _ _ _ eq_refl). vm_compute in Hall. discriminate.
Qed.

Lemma InjectTrace_forwards_allow_list_witness :
  debugSafe exWorld (Header exOutbound)
  ∧ ∃ r span newCtx w',
      InjectTrace (Some Background) exInbound exOutbound exWorld =
        Some ((r, Some span, Some newCtx), w')
      ∧ (∀ name,
           name ∈ forwardHeaders →
           Header_Get (Header (Restful.Request_ exInbound)) name ≠ "" →
           Header r !! CanonicalMIMEHeaderKey name =
             Some [Header_Get (Header (Restful.Request_ exInbound)) name])
      ∧ (∀ K,
           K ≠ CanonicalMIMEHeaderKey TraceIDKey →
           (∀ name, name ∈ forwardHeaders → CanonicalMIMEHeaderKey name = K →
                    Header_Get (Header (Restful.Request_ exInbound)) name = "") →
           Header r !! K =
             Ot.carrierWrites (Header exOutbound)
               (Inject (GlobalTracer exWorld) (SpanCtx (Ot.spanData w' span))).1 !! K).
Proof.
  assert (debugSafe exWorld (Header exOutbound)) as Hsafe
    by (right; exact exOutbound_loggable).
  split; [exact Hsafe|].
  exact (InjectTrace_forwards_allow_list Background exInbound exOutbound exWorld Hsafe).
Defined.

(** An allow-listed header that is present on the inbound request, with an
    empty value, is missing from the outbound request. *)
Lemma InjectTrace_omits_empty_header :
  "x-request-id" ∈ forwardHeaders
  ∧ Header (Restful.Request_ exInboundEmpty) !! CanonicalMIMEHeaderKey "x-request-id"
    = Some [""]
  ∧ ¬ (∀ r span newCtx w',
         InjectTrace (Some Background) exInboundEmpty exOutbound exWorld =
           Some ((r, span, newCtx), w') →
         ∀ name,
           name ∈ forwardHeaders →
           is_Some (Header (Restful.Request_ exInboundEmpty) !! CanonicalMIMEHeaderKey name) →
           is_Some (Header r !! CanonicalMIMEHeaderKey name)).
Proof.
  assert ("x-request-id" ∈ forwardHeaders) as Hin by apply list_elem_of_here.
  split; [exact Hin|]. split; [vm_compute; reflexivity|].
  intros Hall.
  destruct (InjectTrace_result Background exInboundEmpty exOutbound exWorld)
    as (w' & Hrun & _); [right; exact exOutbound_loggable|].
  specialize (Hall _ _ _ _ Hrun "x-request-id" Hin). clear Hrun.
  destruct Hall as [vs Hvs].
  - eexists. vm_compute. reflexivity.
  - vm_compute in Hvs. discriminate Hvs.
Qed.



(** [AddTag] with an empty value on a live span changes the span. *)
Lemma AddTag_empty_value_recorded :
  AddTag (Some 0) "order" "" exLiveWorld =
    Some (tt, withSpans exLiveWorld
                [Ot.addTag "order" "" (Ot.newSpan Jaeger.tracer 0 "handler" [])])
  ∧ AddTag (Some 0) "order" "" exLiveWorld ≠ Some (tt, exLiveWorld).
Proof. split; [done|]. vm_compute. discriminate. Qed.

Lemma facade_noop_witness :
  Spans exLiveWorld !! 0 = Some (Ot.newSpan Jaeger.tracer 0 "handler" [])
  ∧ AddTag (Some 0) "order" "" exLiveWorld =
      Some (tt, withSpans exLiveWorld
                  (<[0 := Ot.addTag "order" "" (Ot.newSpan Jaeger.tracer 0 "handler" [])]>
                     (Spans exLiveWorld)))
  ∧ AddTag None "order" "42" exLiveWorld = Some (tt, exLiveWorld)
  ∧ TraceSQLQuery (Some 0) "" exLiveWorld = Some (tt, exLiveWorld).
Proof.
  pose proof (facade_noop exLiveWorld "order" "42" "SELECT 1" None)
    as (Htag & _ & _ & _ & _ & _ & Hsql & _ & Hlive).
  split; [reflexivity|]. split; [|split; [exact Htag|exact (Hsql (Some 0))]].
  pose proof (facade_noop exLiveWorld "order" "" "" None)
    as (_ & _ & _ & _ & _ & _ & _ & _ & Hempty).
  exact (proj1 (Hempty 0 (Ot.newSpan Jaeger.tracer 0 "handler" []) eq_refl)).
Defined.

Lemma TraceError_records_witness :
  Spans exLiveWorld !! 0 = Some (Ot.newSpan Jaeger.tracer 0 "handler" [])
  ∧ TraceError (Some 0) (Some "connection refused") exLiveWorld =
      Some (tt, withSpans exLiveWorld
                  (<[0 := {| OperationName := "handler"; References := [];
                             SpanCtx := {| TraceID := 1; SpanID := 1; Sampled := true;
                                           Baggage := [] |};
                             Tags := [("error", "true")];
                             Logs := [[("error", "connection refused")]];
                             Finished := 0 |}]> (Spans exLiveWorld))).
Proof.
  split; [reflexivity|].
  exact (proj1 (TraceError_records exLiveWorld) 0
           (Ot.newSpan Jaeger.tracer 0 "handler" []) "connection refused" eq_refl).
Defined.

Lemma inject_extract_roundtrip_witness :
  GlobalTracer exLiveWorld = Jaeger.tracer
  ∧ TraceID (SpanCtx (Ot.spanData exLiveWorld 0)) ≠ 0%N
  ∧ ∃ req' sc',
      InjectSpanIntoRequest (Some 0) exOutbound exLiveWorld = Some ((req', None), exLiveWorld)
      ∧ ExtractRequestHeader (Restful.mkRequest req') exLiveWorld = Some (inl sc', exLiveWorld)
      ∧ TraceID sc' = TraceID (SpanCtx (Ot.spanData exLiveWorld 0))
      ∧ SpanID sc' = SpanID (SpanCtx (Ot.spanData exLiveWorld 0)).
Proof.
  assert (TraceID (SpanCtx (Ot.spanData exLiveWorld 0)) ≠ 0%N) as Hvalid
    by (vm_compute; discriminate).
  split; [reflexivity|]. split; [exact Hvalid|].
  exact (inject_extract_roundtrip exLiveWorld 0 exOutbound eq_refl Hvalid).
Defined.

Lemma debug_log_omits_auth_witness :
  (Logrus.DebugLevel ≤ LogLevel exWorld)%nat
  ∧ loggable (Header (Restful.Request_ exInbound))
  ∧ ∃ m r w' rest,
      StartSpan exInbound "GET /v1/orders" exWorld = Some (r, w')
      ∧ LogOutput w' =
          LogOutput exWorld ++
          mkLogEntry Logrus.DebugLevel [ArgString "incoming header : "; ArgMap m] :: rest
      ∧ redactedView (Header (Restful.Request_ exInbound)) m.
Proof.
  assert (Logrus.DebugLevel ≤ LogLevel exWorld)%nat as Hlevel by (vm_compute; lia).
  split; [exact Hlevel|]. split; [exact exInbound_loggable|].
  exact (proj1 (debug_log_omits_auth exWorld Hlevel) exInbound "GET /v1/orders"
           exInbound_loggable).
Defined.

Lemma StartSpanFromContext_nil_witness :
  ContextFromString "not-a-context" = inr "String does not match tracer state format"
  ∧ ChildSpanFromRemoteSpan None "job" "not-a-context" exWorld = Some ((None, None), exWorld).
Proof.
  assert (ContextFromString "not-a-context" = inr "String does not match tracer state format")
    as Hparse by (vm_compute; reflexivity).
  split; [exact Hparse|].
  exact (proj2 (proj2 (StartSpanFromContext_nil exWorld "job")) _ _ Hparse).
Defined.

Lemma forward_first_nonempty_value_witness :
  debugSafe exWorld (Header exOutbound)
  ∧ "traceparent" ∈ forwardHeaders
  ∧ ∃ r span newCtx w',
      InjectTrace (Some Background) exInboundEmpty exOutbound exWorld =
        Some ((r, Some span, Some newCtx), w')
      ∧ match Header (Restful.Request_ exInboundEmpty) !! CanonicalMIMEHeaderKey "traceparent" with
        | Some (v :: _) =>
            if bool_decide (v ≠ "")
            then Header r !! CanonicalMIMEHeaderKey "traceparent" = Some [v]
            else Header r !! CanonicalMIMEHeaderKey "traceparent" =
                 Ot.carrierWrites (Header exOutbound)
                   (Inject (GlobalTracer exWorld) (SpanCtx (Ot.spanData w' span))).1
                 !! CanonicalMIMEHeaderKey "traceparent"
        | _ =>
            Header r !! CanonicalMIMEHeaderKey "traceparent" =
            Ot.carrierWrites (Header exOutbound)
              (Inject (GlobalTracer exWorld) (SpanCtx (Ot.spanData w' span))).1
            !! CanonicalMIMEHeaderKey "traceparent"
        end.
Proof.
  assert (debugSafe exWorld (Header exOutbound)) as Hsafe
    by (right; exact exOutbound_loggable).
  assert ("traceparent" ∈ forwardHeaders) as Hin
    by (unfold forwardHeaders; do 3 right; left).
  split; [exact Hsafe|]. split; [exact Hin|].
  exact (forward_first_nonempty_value Background exInboundEmpty exOutbound exWorld
           "traceparent" Hsafe Hin).
Defined.

(** Of the two inbound [traceparent] values only the first is forwarded;
    the empty [x-request-id] is not. *)
Example forward_first_value_only :
  ∃ r w', InjectTrace (Some Background) exInboundEmpty exOutbound exWorld =
            Some ((r, Some 0, Some {| activeSpan := Some 0; restfulSpan := None |}), w')
          ∧ Header r !! "Traceparent" = Some ["00-aa-bb-01"]
          ∧ Header r !! "X-Request-Id" = None.
Proof. eexists _, _. split; [by vm_compute|]. by vm_compute. Qed.

(** * Further properties of the package *)

(** ** Request spans *)

Lemma debugOutput_is_Some `{MapRange} (prefix : string) (h : MIMEHeader) (w : World) :
  is_Some (debugOutput prefix h w) ↔ debugSafe w h.
Proof.
  split; [|apply debugOutput_safe].
  unfold debugOutput, debugSafe. case_bool_decide as Hl.
  - intros Hsome. right.
    assert (is_Some (redactLoop (rangeOf h) ∅)) as Hloop
      by (destruct (redactLoop (rangeOf h) ∅); [by eexists|by destruct Hsome]).
    intros k vs Hk.
    destruct (Strings.Contains (Strings.ToLower k) "auth") eqn:Hauth; [by left|right].
    intros ->. apply elem_of_rangeOf in Hk.
    by apply (proj1 (redactLoop_is_Some (rangeOf h) ∅) Hloop k Hauth).
  - intros _. left. unfold Logrus.DebugLevel in *. lia.
Qed.

(** X1. On a request from which a parent context is extracted,
    [StartSpanIfParentSpanExist] and [StartSpan] do the same: same returned
    span and context, same process state.  The span they start is a child
    of the extracted context and nothing else. *)
Theorem StartSpan_with_parent `{MapRange} (w : World) (req : Restful.Request)
    (operationName : string) (spanContext : SpanContext) :
  Extract (GlobalTracer w) (Header (Restful.Request_ req)) = inl spanContext →
  debugSafe w (Header (Restful.Request_ req)) →
  StartSpanIfParentSpanExist req operationName w = StartSpan req operationName w
  ∧ ∃ (span : Span) (d : SpanData) (w' : World),
      StartSpan req operationName w =
        Some ((Some span, Some (Ot.ContextWithSpan (ReqContext (Restful.Request_ req)) span)),
              w')
      ∧ Spans w' = Spans w ++ [d] ∧ Spans w' !! span = Some d
      ∧ References d = [spanContext]
      ∧ SpanCtx d = NewContext (GlobalTracer w) (Some spanContext) (length (Spans w)).
Proof.
  intros Hextract Hsafe.
  destruct (debugOutput_safe "incoming header : " _ w Hsafe) as [out Hout].
  rewrite StartSpan_run, StartSpanIfParentSpanExist_run, Hout, Hextract, app_nil_r.
  split; [done|]. eexists _, _, _. split; [done|]. simpl.
  split_and!; [done|apply lookup_app_last|..];
    unfold requestSpan; by case_bool_decide.
Qed.

(** X2. Whatever the outcome of the extraction, the span [StartSpan]
    starts carries the operation name it was given, the tags [http.method]
    and [http.url] (host followed by request URI) in this order, then the
    tag [X-Ab-TraceID] when and only when the first value of that inbound
    header is not empty; it has no log record and is not finished.  The
    spans started before are left as they were. *)
Theorem StartSpan_tags `{MapRange} (w : World) (req : Restful.Request)
    (operationName : string) :
  debugSafe w (Header (Restful.Request_ req)) →
  ∃ (span : Span) (d : SpanData) (newCtx : Context) (w' : World),
    StartSpan req operationName w = Some ((Some span, Some newCtx), w')
    ∧ Spans w' = Spans w ++ [d] ∧ span = length (Spans w)
    ∧ activeSpan newCtx = Some span
    ∧ OperationName d = operationName
    ∧ Tags d =
        [("http.method", Method (Restful.Request_ req));
         ("http.url", Host (Restful.Request_ req) +:+ RequestURI (Restful.Request_ req))]
        ++ (if bool_decide (Header_Get (Header (Restful.Request_ req)) TraceIDKey ≠ "")
            then [(TraceIDKey, Header_Get (Header (Restful.Request_ req)) TraceIDKey)]
            else [])
    ∧ Logs d = [] ∧ Finished d = 0.
Proof.
  intros Hsafe.
  destruct (debugOutput_safe "incoming header : " _ w Hsafe) as [out Hout].
  rewrite StartSpan_run, Hout. eexists _, _, _, _. split; [done|]. simpl.
  split_and!; try done; unfold requestSpan; by case_bool_decide.
Qed.

(** X3. [StartSpan] and [StartSpanIfParentSpanExist] fault in exactly one
    situation: logrus is at debug level or finer and some inbound header
    whose name does not contain "auth" has an empty list of values (the
    debug loop then indexes [val[0]] out of range).  In every other case
    they return. *)
Theorem StartSpan_faults_iff `{MapRange} (w : World) (req : Restful.Request)
    (operationName : string) :
  (is_Some (StartSpan req operationName w)
   ↔ debugSafe w (Header (Restful.Request_ req)))
  ∧ (is_Some (StartSpanIfParentSpanExist req operationName w)
     ↔ debugSafe w (Header (Restful.Request_ req))).
Proof.
  rewrite <- (debugOutput_is_Some "incoming header : ").
  rewrite StartSpan_run, StartSpanIfParentSpanExist_run.
  destruct (debugOutput _ _ w) as [out|].
  - split; (split; [by eexists|]); intros _; [by eexists|].
    destruct (Extract _ _); by eexists.
  - split; split; by intros [? ?].
Qed.

(** X4. The logrus level and the entries already logged have no influence
    on tracing: for two process states that differ in them only, and in
    which the debug block does not fault, [StartSpan] returns the same span
    and context and leaves the same spans; so does [InjectTrace], which
    also leaves the same outbound request. *)
Theorem tracing_independent_of_logging `{MapRange} (w : World) (level : nat)
    (output : list LogEntry) (req : Restful.Request) (operationName : string)
    (c : Context) (outgoingReq : Request) :
  let w2 := {| GlobalTracer := GlobalTracer w; Spans := Spans w;
               LogLevel := level; LogOutput := output |} in
  debugSafe w (Header (Restful.Request_ req)) →
  debugSafe w2 (Header (Restful.Request_ req)) →
  debugSafe w (Header outgoingReq) →
  debugSafe w2 (Header outgoingReq) →
  (∃ r w' w2',
      StartSpan req operationName w = Some (r, w')
      ∧ StartSpan req operationName w2 = Some (r, w2')
      ∧ Spans w' = Spans w2')
  ∧ (∃ r w' w2',
      InjectTrace (Some c) req outgoingReq w = Some (r, w')
      ∧ InjectTrace (Some c) req outgoingReq w2 = Some (r, w2')
      ∧ Spans w' = Spans w2').
Proof.
  intros w2 Hs1 Hs2 Ho1 Ho2. split.
  - destruct (debugOutput_safe "incoming header : " _ w Hs1) as [out1 Hout1].
    destruct (debugOutput_safe "incoming header : " _ w2 Hs2) as [out2 Hout2].
    rewrite !StartSpan_run, Hout1, Hout2. by eexists _, _, _.
  - destruct (InjectTrace_safe c req outgoingReq w Ho1) as [out1 Hout1].
    destruct (InjectTrace_safe c req outgoingReq w2 Ho2) as [out2 Hout2].
    rewrite (InjectTrace_run c req outgoingReq w2).
    change (injectedHeaders w2 c (Header outgoingReq))
      with (injectedHeaders w c (Header outgoingReq)) in *.
    rewrite Hout2, InjectTrace_run, Hout1. by eexists _, _, _.
Qed.

(** ** Outbound requests *)

Lemma carrierWrites_snoc (h : MIMEHeader) (ws : list (string * string)) (k v : string) :
  Ot.carrierWrites h (ws ++ [(k, v)]) = Header_Set (Ot.carrierWrites h ws) k v.
Proof. unfold Ot.carrierWrites. by rewrite foldl_app. Qed.

Lemma carrierWrites_other (h : MIMEHeader) (ws : list (string * string)) (K : string) :
  (∀ kv, kv ∈ ws → CanonicalMIMEHeaderKey kv.1 ≠ K) →
  Ot.carrierWrites h ws !! K = h !! K.
Proof.
  induction ws as [|[k v] ws IH] using rev_ind; intros Hother; [done|].
  rewrite carrierWrites_snoc. unfold Header_Set. rewrite lookup_insert_ne.
  - apply IH. intros kv Hin. apply Hother, elem_of_app. by left.
  - apply (Hother (k, v)), elem_of_app. right. by apply list_elem_of_singleton.
Qed.

Lemma carrierWrites_last (h : MIMEHeader) (ws1 ws2 : list (string * string))
    (k v : string) :
  (∀ kv, kv ∈ ws2 → CanonicalMIMEHeaderKey kv.1 ≠ CanonicalMIMEHeaderKey k) →
  Ot.carrierWrites h (ws1 ++ (k, v) :: ws2) !! CanonicalMIMEHeaderKey k = Some [v].
Proof.
  intros Hlater. unfold Ot.carrierWrites. rewrite foldl_app. simpl.
  fold (Ot.carrierWrites (Header_Set (foldl (λ acc kv, Header_Set acc kv.1 kv.2) h ws1) k v)
          ws2).
  rewrite carrierWrites_other by done. unfold Header_Set. apply lookup_insert_eq.
Qed.

Lemma carrierWrites_dom (h : MIMEHeader) (ws : list (string * string)) (K : string) :
  is_Some (Ot.carrierWrites h ws !! K) →
  is_Some (h !! K) ∨ ∃ kv, kv ∈ ws ∧ CanonicalMIMEHeaderKey kv.1 = K.
Proof.
  induction ws as [|[k v] ws IH] using rev_ind; intros Hsome; [by left|].
  rewrite carrierWrites_snoc in Hsome. unfold Header_Set in Hsome.
  destruct (decide (CanonicalMIMEHeaderKey k = K)) as [Heq|Hne].
  - right. exists (k, v). split; [|done]. apply elem_of_app. right.
    by apply list_elem_of_singleton.
  - rewrite lookup_insert_ne in Hsome by done.
    destruct (IH Hsome) as [?|(kv & Hin & Hkv)]; [by left|right].
    exists kv. split; [|done]. apply elem_of_app. by left.
Qed.

Lemma forwardLoop_dom (incoming outgoing : MIMEHeader) (K : string) :
  is_Some (forwardLoop incoming outgoing !! K) →
  is_Some (outgoing !! K) ∨ ∃ name, name ∈ forwardHeaders ∧ CanonicalMIMEHeaderKey name = K.
Proof.
  unfold forwardLoop. generalize forwardHeaders as hs.
  induction hs as [|x hs IH] using rev_ind; intros Hsome; [by left|].
  rewrite foldl_app in Hsome. simpl in Hsome.
  case_bool_decide.
  - unfold Header_Set in Hsome.
    destruct (decide (CanonicalMIMEHeaderKey x = K)) as [Heq|Hne].
    + right. exists x. split; [|done]. apply elem_of_app. right.
      by apply list_elem_of_singleton.
    + rewrite lookup_insert_ne in Hsome by done.
      destruct (IH Hsome) as [?|(name & Hin & Hname)]; [by left|right].
      exists name. split; [|done]. apply elem_of_app. by left.
  - destruct (IH Hsome) as [?|(name & Hin & Hname)]; [by left|right].
    exists name. split; [|done]. apply elem_of_app. by left.
Qed.

(** X5. With a non-nil context [InjectTrace] starts exactly one span and
    changes nothing of the outbound request but its headers.  The span is
    named "outgoing request", is a child of the current span of the context
    when there is one and a root span otherwise, carries the tags
    [http.url] (host followed by request URI) and [http.method] of the
    outbound request, in this order, and is left unfinished; the returned
    context is the given one with this span as current span. *)
Theorem InjectTrace_span `{MapRange} (c : Context) (incomingReq : Restful.Request)
    (outgoingReq : Request) (w : World) :
  debugSafe w (Header outgoingReq) →
  ∃ (r : Request) (span : Span) (d : SpanData) (w' : World),
    InjectTrace (Some c) incomingReq outgoingReq w =
      Some ((r, Some span, Some (Ot.ContextWithSpan c span)), w')
    ∧ Method r = Method outgoingReq ∧ Host r = Host outgoingReq
    ∧ RequestURI r = RequestURI outgoingReq ∧ ReqContext r = ReqContext outgoingReq
    ∧ span = length (Spans w) ∧ Spans w' = Spans w ++ [d]
    ∧ GlobalTracer w' = GlobalTracer w
    ∧ OperationName d = "outgoing request"
    ∧ References d = match activeSpan c with
                     | Some parent => [SpanCtx (Ot.spanData w parent)]
                     | None => []
                     end
    ∧ Tags d = [("http.url", Host outgoingReq +:+ RequestURI outgoingReq);
                ("http.method", Method outgoingReq)]
    ∧ Logs d = [] ∧ Finished d = 0.
Proof.
  intros Hsafe.
  destruct (InjectTrace_result c incomingReq outgoingReq w Hsafe)
    as (w' & Hrun & Htracer & Hspans & _).
  eexists _, _, _, _. split; [exact Hrun|]. by split_and!.
Qed.

(** X6. [InjectTrace] logs the outbound headers before it copies
    [X-Ab-TraceID]: when neither the outbound request nor the tracer's
    injection brings a header of that name, the map logged at debug level
    has no [x-ab-traceid] entry although the request that is returned
    carries the inbound value. *)
Theorem InjectTrace_log_precedes_trace_id `{MapRange} (c : Context)
    (incomingReq : Restful.Request) (outgoingReq : Request) (w : World) :
  (Logrus.DebugLevel ≤ LogLevel w)%nat →
  loggable (Header outgoingReq) →
  Header_Get (Header (Restful.Request_ incomingReq)) TraceIDKey ≠ "" →
  (∀ k, is_Some (Header outgoingReq !! k) → Strings.ToLower k ≠ "x-ab-traceid") →
  (∀ sc kv, kv ∈ (Inject (GlobalTracer w) sc).1 →
            Strings.ToLower (CanonicalMIMEHeaderKey kv.1) ≠ "x-ab-traceid") →
  ∃ r span newCtx w' m,
    InjectTrace (Some c) incomingReq outgoingReq w = Some ((r, span, newCtx), w')
    ∧ LogOutput w' =
        LogOutput w ++
        [mkLogEntry Logrus.DebugLevel [ArgString "outgoing header : "; ArgMap m]]
    ∧ m !! "x-ab-traceid" = None
    ∧ Header_Get (Header r) TraceIDKey =
        Header_Get (Header (Restful.Request_ incomingReq)) TraceIDKey.
Proof.
  intros Hlevel Hlog Hval Hout Hwrites.
  destruct (debugOutput_view "outgoing header : "
              (forwardLoop (Header (Restful.Request_ incomingReq))
                 (injectedHeaders w c (Header outgoingReq))) w Hlevel)
    as (m & Hlogged & _ & _ & _ & Hsource).
  { apply forward_loggable, loggable_carrierWrites, Hlog. }
  rewrite InjectTrace_run, Hlogged.
  eexists _, _, _, _, m. split; [reflexivity|]. split; [reflexivity|]. split.
  - destruct (m !! "x-ab-traceid") as [v|] eqn:Hm; [|done].
    destruct (Hsource _ _ Hm) as (k & vs & Hk & Hlower & _).
    assert (is_Some (forwardLoop (Header (Restful.Request_ incomingReq))
                       (injectedHeaders w c (Header outgoingReq)) !! k)) as Hsome
      by by eexists.
    apply forwardLoop_dom in Hsome as [Hsome|(name & Hin & <-)].
    + apply carrierWrites_dom in Hsome as [Hsome|(kv & Hin & <-)].
      * by destruct (Hout k Hsome).
      * by destruct (Hwrites _ kv Hin).
    + unfold forwardHeaders in Hin.
      repeat (apply elem_of_cons in Hin as [->|Hin]; [by vm_compute in Hlower|]).
      by apply elem_of_nil in Hin.
  - cbn [Header withHeader]. unfold Header_Get at 1. by rewrite outbound_trace_id.
Qed.

(** X7. [InjectSpanIntoRequest] with a nil span returns a nil error and
    leaves the request as it is.  With a span it returns the error of the
    tracer's injection, starts no span and logs nothing; in the headers,
    every name the tracer did not write keeps its values, and a name the
    tracer wrote holds the single value written last. *)
Theorem InjectSpanIntoRequest_frame (w : World) (span : Span) (req : Request) :
  InjectSpanIntoRequest None req w = Some ((req, None), w)
  ∧ ∃ r : Request,
      InjectSpanIntoRequest (Some span) req w =
        Some ((r, (Inject (GlobalTracer w) (SpanCtx (Ot.spanData w span))).2), w)
      ∧ Method r = Method req ∧ Host r = Host req ∧ RequestURI r = RequestURI req
      ∧ (∀ K,
           (∀ kv, kv ∈ (Inject (GlobalTracer w) (SpanCtx (Ot.spanData w span))).1 →
                  CanonicalMIMEHeaderKey kv.1 ≠ K) →
           Header r !! K = Header req !! K)
      ∧ (∀ ws1 ws2 k v,
           (Inject (GlobalTracer w) (SpanCtx (Ot.spanData w span))).1
             = ws1 ++ (k, v) :: ws2 →
           (∀ kv, kv ∈ ws2 → CanonicalMIMEHeaderKey kv.1 ≠ CanonicalMIMEHeaderKey k) →
           Header r !! CanonicalMIMEHeaderKey k = Some [v]).
Proof.
  split; [done|]. eexists. split.
  { unfold InjectSpanIntoRequest, Ot.SpanContextOf, Ot.InjectHeaders. run_monad.
    reflexivity. }
  cbn [Method Host RequestURI Header withHeader fst]. split_and!; try done.
  - intros K Hother. by apply carrierWrites_other.
  - intros ws1 ws2 k v -> Hlater. by apply carrierWrites_last.
Qed.

Lemma b3Extract_ext (h1 h2 : MIMEHeader) :
  (∀ name, name ∈ ["x-b3-traceid"; "x-b3-spanid"; "x-b3-sampled"] →
           h1 !! CanonicalMIMEHeaderKey name = h2 !! CanonicalMIMEHeaderKey name) →
  Jaeger.b3Extract h1 = Jaeger.b3Extract h2.
Proof.
  intros Hsame. unfold Jaeger.b3Extract, Header_Get.
  rewrite (Hsame "x-b3-traceid"), (Hsame "x-b3-spanid"), (Hsame "x-b3-sampled");
    [done|set_solver..].
Qed.

Lemma outbound_b3 (w : World) (c : Context) (incoming outgoing : MIMEHeader) :
  Jaeger.b3Extract (outboundHeaders w c incoming outgoing)
  = Jaeger.b3Extract (injectedHeaders w c outgoing).
Proof.
  apply b3Extract_ext. intros name Hname. apply outbound_other.
  - repeat (apply elem_of_cons in Hname as [->|Hname]; [by vm_compute|]).
    by apply elem_of_nil in Hname.
  - intros fwd Hfwd Heq. exfalso. unfold forwardHeaders in Hfwd.
    repeat (apply elem_of_cons in Hname as [->|Hname];
            [repeat (apply elem_of_cons in Hfwd as [->|Hfwd]; [by vm_compute in Heq|]);
             by apply elem_of_nil in Hfwd|]).
    by apply elem_of_nil in Hname.
Qed.

(** X8. A trace continues across a hop.  With the codec that
    [InitGlobalTracer] installs in both processes, the request that
    [InjectTrace] has prepared in one process makes [StartSpan] in the
    receiving process start a child of the very span [InjectTrace]
    started: the parent it extracts has that span's trace id and span id,
    and the new span is in the same trace.  The forwarded headers and the
    application trace id do not disturb the tracer's headers. *)
Theorem trace_continues_across_hop `{MapRange} (wA wB : World) (c : Context)
    (incomingReq : Restful.Request) (outgoingReq : Request) (operationName : string) :
  GlobalTracer wA = Jaeger.tracer →
  GlobalTracer wB = Jaeger.tracer →
  loggable (Header outgoingReq) →
  (∀ parent, activeSpan c = Some parent →
             TraceID (SpanCtx (Ot.spanData wA parent)) ≠ 0%N) →
  ∃ r spanA ctxA wA' spanB ctxB wB' dB parent,
    InjectTrace (Some c) incomingReq outgoingReq wA = Some ((r, Some spanA, ctxA), wA')
    ∧ StartSpan (Restful.mkRequest r) operationName wB = Some ((Some spanB, ctxB), wB')
    ∧ Spans wB' !! spanB = Some dB
    ∧ References dB = [parent]
    ∧ TraceID parent = TraceID (SpanCtx (Ot.spanData wA' spanA))
    ∧ SpanID parent = SpanID (SpanCtx (Ot.spanData wA' spanA))
    ∧ TraceID (SpanCtx dB) = TraceID (SpanCtx (Ot.spanData wA' spanA)).
Proof.
  intros HtA HtB Hlog Hvalid.
  destruct (InjectTrace_result c incomingReq outgoingReq wA) as (wA' & HrunA & _ & Hspans & _);
    [by right|].
  set (sc := NewContext (GlobalTracer wA) (head (parentRefs wA c)) (length (Spans wA))).
  assert (SpanCtx (Ot.spanData wA' (length (Spans wA))) = sc) as Hsc.
  { unfold Ot.spanData. by rewrite Hspans, lookup_app_last. }
  assert (TraceID sc ≠ 0%N) as Hsc_valid.
  { unfold sc, parentRefs. rewrite HtA.
    destruct (activeSpan c) as [p|] eqn:Hp; simpl; [by apply Hvalid|lia]. }
  set (hdr := outboundHeaders wA c (Header (Restful.Request_ incomingReq))
                (Header outgoingReq)) in *.
  assert (∃ sc', Jaeger.b3Extract hdr = inl sc'
                 ∧ TraceID sc' = TraceID sc ∧ SpanID sc' = SpanID sc)
    as (sc' & Hextract & Htrace & Hspan).
  { unfold hdr. rewrite outbound_b3. unfold injectedHeaders. fold sc. rewrite HtA.
    destruct (b3_roundtrip sc (Header outgoingReq) Hsc_valid)
      as (sc' & He & Ht & Hs & _).
    by exists sc'. }
  assert (debugSafe wB hdr) as HsafeB.
  { right. unfold hdr, outboundHeaders. simpl.
    case_bool_decide; [apply loggable_Set|];
      apply forward_loggable, loggable_carrierWrites, Hlog. }
  destruct (debugOutput_safe "incoming header : " hdr wB HsafeB) as [out Hout].
  eexists _, _, _, _, _, _, _, _, sc'.
  split; [exact HrunA|].
  rewrite StartSpan_run. cbn [Restful.Request_ Header withHeader].
  fold hdr. rewrite Hout, HtB.
  change (Extract Jaeger.tracer hdr) with (Jaeger.b3Extract hdr). rewrite Hextract.
  split; [reflexivity|]. cbn [Spans withOutput withSpans].
  split; [apply lookup_app_last|].
  rewrite Hsc. unfold requestSpan.
  split_and!; [by case_bool_decide|done|done|].
  case_bool_decide; cbn [SpanCtx Ot.addTag Ot.newSpan head];
    rewrite HtB; cbn [NewContext Jaeger.tracer Jaeger.newContext TraceID]; exact Htrace.
Qed.

(** ** Deriving spans *)

Lemma spanData_app_l (w : World) (l : list SpanData) (sp : Span) :
  sp < length (Spans w) →
  Ot.spanData (withSpans w (Spans w ++ l)) sp = Ot.spanData w sp.
Proof. intros Hlt. unfold Ot.spanData. simpl. by rewrite lookup_app_l. Qed.

(** X9. A span started with [StartDBSpan] from the context that
    [StartSpanFromContext] returned is a child of the span that call
    started: it is a new span, named ["DB-"] followed by the given name,
    whose only reference is the context of that span; and the context it
    returns has it as current span. *)
Theorem StartDBSpan_child (c : Context) (operationName dbName : string) (w : World) :
  ∃ (span : Span) (newCtx : Context) (w1 : World)
    (dbSpan : Span) (dbCtx : Context) (w2 : World) (d : SpanData),
    StartSpanFromContext (Some c) operationName w = Some ((Some span, Some newCtx), w1)
    ∧ StartDBSpan (Some newCtx) dbName w1 = Some ((Some dbSpan, Some dbCtx), w2)
    ∧ dbSpan ≠ span
    ∧ Spans w2 = Spans w1 ++ [d]
    ∧ Spans w2 !! dbSpan = Some d
    ∧ OperationName d = "DB-" +:+ dbName
    ∧ References d = [SpanCtx (Ot.spanData w1 span)]
    ∧ activeSpan dbCtx = Some dbSpan
    ∧ Spans w2 !! span = Spans w1 !! span.
Proof.
  eexists _, _, _, _, _, _, _.
  split; [apply StartSpanFromContext_run|].
  unfold StartDBSpan. rewrite StartSpanFromContext_run.
  split; [reflexivity|]. cbn [Spans withSpans].
  split_and!; try done.
  - rewrite length_app. simpl. lia.
  - apply lookup_app_last.
  - rewrite (lookup_app_l (Spans w ++ _)); [done|]. rewrite length_app. simpl. lia.
Qed.

(** X10. On success [ChildSpanFromRemoteSpan] returns the context it was
    given, not one carrying the new span: a span started afterwards from
    the returned context is derived from the current span of the given
    context (or is a root span), exactly as if the remote child had not
    been started, and is not a child of the remote child. *)
Theorem ChildSpanFromRemoteSpan_context `{JaegerLib} (w : World) (c : Context)
    (name spanContextStr nextName : string) (spanContext : SpanContext) :
  ContextFromString spanContextStr = inl spanContext →
  (∀ parent, activeSpan c = Some parent → parent < length (Spans w)) →
  ∃ (remote : Span) (w1 : World) (next : Span) (nextCtx : Context) (w2 : World)
    (d : SpanData),
    ChildSpanFromRemoteSpan (Some c) name spanContextStr w = Some ((Some remote, Some c), w1)
    ∧ StartSpanFromContext (Some c) nextName w1 = Some ((Some next, Some nextCtx), w2)
    ∧ Spans w2 !! next = Some d
    ∧ References d = match activeSpan c with
                     | Some parent => [SpanCtx (Ot.spanData w parent)]
                     | None => []
                     end
    ∧ activeSpan c ≠ Some remote.
Proof.
  intros Hparse Hlive. unfold ChildSpanFromRemoteSpan. rewrite Hparse.
  eexists _, _, _, _, _, _. split; [reflexivity|].
  rewrite StartSpanFromContext_run. split; [reflexivity|]. cbn [Spans withSpans].
  split; [apply lookup_app_last|]. split.
  - simpl. unfold parentRefs. destruct (activeSpan c) as [p|] eqn:Hp; [|done].
    by rewrite spanData_app_l by by apply Hlive.
  - intros Hc. apply Hlive in Hc. lia.
Qed.

(** X11. [StartChildSpan] on a nil span returns nil and starts nothing.
    On a live span it starts a new span with the given name whose only
    reference is the context the parent has at that moment: a baggage item
    put on the parent with [AddBaggage] before the call is part of that
    reference, with the trace id and the span id of the parent; the parent
    itself is left as [AddBaggage] left it. *)
Theorem StartChildSpan_baggage (w : World) (sp : Span) (d : SpanData)
    (key value name : string) :
  Spans w !! sp = Some d →
  StartChildSpan None name w = Some (None, w)
  ∧ ∃ (child : Span) (w' : World) (dc : SpanData) (ref : SpanContext),
      (AddBaggage (Some sp) key value;; StartChildSpan (Some sp) name) w
        = Some (Some child, w')
      ∧ child = length (Spans w)
      ∧ Spans w' = <[sp := Ot.addBaggageItem key value d]> (Spans w) ++ [dc]
      ∧ OperationName dc = name
      ∧ References dc = [ref]
      ∧ TraceID ref = TraceID (SpanCtx d) ∧ SpanID ref = SpanID (SpanCtx d)
      ∧ Baggage ref = Baggage (SpanCtx d) ++ [(key, value)]
      ∧ Tags dc = [] ∧ Logs dc = [] ∧ Finished dc = 0.
Proof.
  intros Hd. split; [done|].
  unfold AddBaggage, Ot.SetBaggageItem, StartChildSpan. step.
  rewrite (updSpan_live _ _ _ _ Hd).
  unfold Ot.SpanContextOf, Ot.StartSpan, Ot.spanData. run_monad.
  cbn [Spans withSpans].
  assert (sp < length (Spans w)) as Hlt by by eapply lookup_lt_Some.
  rewrite list_lookup_insert_eq by done. cbn [default].
  eexists _, _, _, _. split; [reflexivity|]. cbn [Spans withSpans].
  rewrite length_insert. by split_and!.
Qed.

(** ** The façade, continued *)

Lemma onlySpanTouched_refl (sp : Span) (w : World) : onlySpanTouched sp w w.
Proof. by repeat split. Qed.

Lemma onlySpanTouched_trans (sp : Span) (w1 w2 w3 : World) :
  onlySpanTouched sp w1 w2 → onlySpanTouched sp w2 w3 → onlySpanTouched sp w1 w3.
Proof.
  intros (? & ? & ? & ? & Ha & ? & ? & ? & ? & ?) (? & ? & ? & ? & Hb & ? & ? & ? & ? & ?).
  repeat split; try congruence. intros j Hj. by rewrite Hb, Ha.
Qed.

Lemma updSpan_touches (f : SpanData → SpanData) (sp : Span) (w : World) :
  (∀ d, OperationName (f d) = OperationName d ∧ References (f d) = References d
        ∧ TraceID (SpanCtx (f d)) = TraceID (SpanCtx d)
        ∧ SpanID (SpanCtx (f d)) = SpanID (SpanCtx d)
        ∧ Sampled (SpanCtx (f d)) = Sampled (SpanCtx d)) →
  ∃ w', Ot.updSpan f sp w = Some (tt, w') ∧ onlySpanTouched sp w w'.
Proof.
  intros Hf. eexists. split; [reflexivity|].
  unfold onlySpanTouched, Ot.spanData. cbn [GlobalTracer LogLevel LogOutput Spans withSpans].
  rewrite length_alter, list_lookup_alter_eq.
  split_and!; try done.
  - intros j Hj. by apply list_lookup_alter_ne.
  - destruct (Spans w !! sp); [apply Hf|done].
  - destruct (Spans w !! sp); [apply Hf|done].
  - destruct (Spans w !! sp); [apply Hf|done].
  - destruct (Spans w !! sp); [apply Hf|done].
  - destruct (Spans w !! sp); [apply Hf|done].
Qed.

(** X12. None of [AddTag], [AddLog], [AddBaggage], [Finish], [TraceError]
    and [TraceSQLQuery] ever faults, starts or drops a span, touches a span
    other than the one it is given, changes the name, the references or the
    identity of that span, installs another tracer or writes to the log. *)
Theorem facade_touches_one_span (w : World) (sp : Span) (key value query : string)
    (err : option string) (op : M unit) :
  op ∈ facadeOps sp key value query err →
  ∃ w', op w = Some (tt, w') ∧ onlySpanTouched sp w w'.
Proof.
  unfold facadeOps. intros Hop.
  repeat (apply elem_of_cons in Hop as [->|Hop]); [..|by apply elem_of_nil in Hop].
  - by apply updSpan_touches.
  - by apply updSpan_touches.
  - by apply updSpan_touches.
  - by apply updSpan_touches.
  - destruct err as [msg|]; [|eexists; split; [done|apply onlySpanTouched_refl]].
    unfold TraceError, AddLog, AddTag, Ot.LogFields, Ot.SetTag. step.
    destruct (updSpan_touches (Ot.addLogRecord [("error", msg)]) sp w) as (w1 & -> & H1);
      [done|].
    destruct (updSpan_touches (Ot.addTag "error" "true") sp w1) as (w2 & -> & H2); [done|].
    exists w2. split; [done|]. by eapply onlySpanTouched_trans.
  - unfold TraceSQLQuery. case_bool_decide.
    + by apply updSpan_touches.
    + eexists. split; [done|apply onlySpanTouched_refl].
Qed.

(** X13. [TraceSQLQuery] on a live span with a non-empty query appends
    exactly one log record, with the single field ["SQL"] holding the
    query, and no tag; [Finish] counts: each call on a live span adds one
    to the number of times the span has been finished, a second call
    included. *)
Theorem TraceSQLQuery_and_Finish (w : World) (sp : Span) (d : SpanData) (query : string) :
  Spans w !! sp = Some d →
  query ≠ "" →
  TraceSQLQuery (Some sp) query w =
    Some (tt, withSpans w
                (<[sp := {| OperationName := OperationName d; References := References d;
                            SpanCtx := SpanCtx d; Tags := Tags d;
                            Logs := Logs d ++ [[("SQL", query)]];
                            Finished := Finished d |}]> (Spans w)))
  ∧ (Finish (Some sp);; Finish (Some sp)) w =
    Some (tt, withSpans w
                (<[sp := {| OperationName := OperationName d; References := References d;
                            SpanCtx := SpanCtx d; Tags := Tags d; Logs := Logs d;
                            Finished := S (S (Finished d)) |}]> (Spans w))).
Proof.
  intros Hd Hq. split.
  - unfold TraceSQLQuery, AddLog, Ot.LogFields. rewrite bool_decide_true by done.
    by rewrite (updSpan_live _ _ _ _ Hd).
  - unfold Finish, Ot.Finish. step. rewrite (updSpan_live _ _ _ _ Hd).
    rewrite (updSpan_live _ sp (Ot.markFinished d)).
    + simpl. by rewrite list_insert_insert_eq.
    + simpl. apply list_lookup_insert_eq. by eapply lookup_lt_Some.
Qed.

(** X14. [GetSpanFromRestfulContext] panics on a nil context.  When the
    context holds a span under [SpanContextKey] it returns that span and
    does nothing else.  Otherwise it logs, at info level, that the filter
    was not initialized and returns a newly started span named "unnamed",
    derived from the current span of the context. *)
Theorem GetSpanFromRestfulContext_cases (w : World) (c : Context) :
  GetSpanFromRestfulContext None w = None
  ∧ (∀ span, restfulSpan c = Some span →
             GetSpanFromRestfulContext (Some c) w = Some (Some span, w))
  ∧ (restfulSpan c = None →
     ∃ w',
       GetSpanFromRestfulContext (Some c) w = Some (Some (length (Spans w)), w')
       ∧ Spans w' =
           Spans w ++
           [{| OperationName := "unnamed";
               References := match activeSpan c with
                             | Some parent => [SpanCtx (Ot.spanData w parent)]
                             | None => []
                             end;
               SpanCtx := NewContext (GlobalTracer w)
                            (match activeSpan c with
                             | Some parent => Some (SpanCtx (Ot.spanData w parent))
                             | None => None
                             end) (length (Spans w));
               Tags := []; Logs := []; Finished := 0 |}]
       ∧ LogOutput w' =
           LogOutput w ++
           (if bool_decide (Logrus.InfoLevel ≤ LogLevel w)%nat
            then [mkLogEntry Logrus.InfoLevel
                    [ArgString "missed initialization of restful plugin jaeger.Filter"]]
            else [])).
Proof.
  split_and!; [done|..].
  - intros span Hspan. unfold GetSpanFromRestfulContext. by rewrite Hspan.
  - intros Hnone. unfold GetSpanFromRestfulContext. rewrite Hnone. step.
    unfold Logrus.Info, Logrus.Log.
    case_bool_decide; step; rewrite StartSpanFromContext_run;
      (eexists; split; [reflexivity|]); cbn [Spans LogOutput withSpans withOutput];
      unfold Ot.newSpan, parentRefs; (split; [by destruct (activeSpan c)|]);
      [done|by rewrite app_nil_r].
Qed.

(** ** Debug logging, continued *)

Lemma redactedView_unique (h : MIMEHeader) (m1 m2 : gmap string string) :
  (∀ k k', is_Some (h !! k) → is_Some (h !! k') →
           Strings.ToLower k = Strings.ToLower k' → k = k') →
  redactedView h m1 → redactedView h m2 → m1 ⊆ m2.
Proof.
  intros Hinj (_ & _ & _ & Hsrc1) (_ & _ & Huniq2 & _).
  apply map_subseteq_spec. intros key v Hm1.
  destruct (Hsrc1 key v Hm1) as (k & vs & Hk & <- & Hna).
  destruct (Huniq2 k (v :: vs) Hk Hna) as [_ ->]; [|done].
  intros k' Hk' Hlow. symmetry. apply Hinj; [by eexists|done|done].
Qed.

(** X15. When no two names of a header map differ by letter case only, as
    in every map built with [Header.Set] or parsed from a request, the map
    the debug loop builds, and whether it faults, do not depend on the
    order in which the [range] visits the headers. *)
Theorem redactLoop_order_independent (order1 order2 : MapRange) (h : MIMEHeader) :
  (∀ k k', is_Some (h !! k) → is_Some (h !! k') →
           Strings.ToLower k = Strings.ToLower k' → k = k') →
  redactLoop (@rangeOf order1 h) ∅ = redactLoop (@rangeOf order2 h) ∅.
Proof.
  intros Hinj.
  destruct (redactLoop (@rangeOf order1 h) ∅) as [m1|] eqn:H1;
    destruct (redactLoop (@rangeOf order2 h) ∅) as [m2|] eqn:H2.
  - pose proof (@redactLoop_view order1 h m1 H1) as Hv1.
    pose proof (@redactLoop_view order2 h m2 H2) as Hv2.
    f_equal. apply (anti_symm (⊆)); by eapply redactedView_unique.
  - assert (is_Some (redactLoop (@rangeOf order2 h) ∅)) as [? ?]; [|congruence].
    apply redactLoop_is_Some. intros k Hk Hin.
    apply (@elem_of_rangeOf order2), (@elem_of_rangeOf order1) in Hin.
    by apply (proj1 (redactLoop_is_Some (@rangeOf order1 h) ∅) (mk_is_Some _ _ H1) k Hk).
  - assert (is_Some (redactLoop (@rangeOf order1 h) ∅)) as [? ?]; [|congruence].
    apply redactLoop_is_Some. intros k Hk Hin.
    apply (@elem_of_rangeOf order1), (@elem_of_rangeOf order2) in Hin.
    by apply (proj1 (redactLoop_is_Some (@rangeOf order2 h) ∅) (mk_is_Some _ _ H2) k Hk).
  - done.
Qed.

(** With two names that differ by letter case only, the logged value is
    the one visited last. *)
Example redactLoop_order_matters :
  redactLoop (@rangeOf mapRangeDefault exCollidingHeader) ∅
  ≠ redactLoop (@rangeOf mapRangeReverse exCollidingHeader) ∅.
Proof. vm_compute. discriminate. Qed.

(** ** Header names *)

Lemma lowerByte_valid (c : ascii) :
  validHeaderFieldByte (Strings.lowerByte c) = validHeaderFieldByte c.
Proof. destruct c as [[] [] [] [] [] [] [] []]; reflexivity. Qed.

Lemma validHeaderField_ToLower (s : string) :
  validHeaderField (Strings.ToLower s) = validHeaderField s.
Proof. induction s as [|c s IH]; simpl; [done|]. by rewrite lowerByte_valid, IH. Qed.

Lemma canonicalLoop_ToLower (upper : bool) (s : string) :
  canonicalLoop upper (Strings.ToLower s) = canonicalLoop upper s.
Proof.
  revert upper. induction s as [|c s IH]; intros upper; [done|].
  cbn [Strings.ToLower canonicalLoop]. rewrite IH.
  destruct c as [[] [] [] [] [] [] [] []]; destruct upper; reflexivity.
Qed.

Lemma CanonicalMIMEHeaderKey_ToLower (s : string) :
  CanonicalMIMEHeaderKey (Strings.ToLower s) = CanonicalMIMEHeaderKey s ∨
  validHeaderField s = false.
Proof.
  unfold CanonicalMIMEHeaderKey. rewrite validHeaderField_ToLower.
  destruct (validHeaderField s); [left|by right]. apply canonicalLoop_ToLower.
Qed.

Lemma canonical_of_lower (spelling name : string) :
  Strings.ToLower spelling = Strings.ToLower name →
  validHeaderField name = true →
  CanonicalMIMEHeaderKey spelling = CanonicalMIMEHeaderKey name.
Proof.
  intros Hlow Hvalid.
  assert (validHeaderField spelling = true) as Hvalid'
    by by rewrite <- validHeaderField_ToLower, Hlow, validHeaderField_ToLower.
  destruct (CanonicalMIMEHeaderKey_ToLower spelling) as [<-|?]; [|congruence].
  destruct (CanonicalMIMEHeaderKey_ToLower name) as [<-|?]; [|congruence].
  by rewrite Hlow.
Qed.

(** X16. Header names are matched without regard to letter case.  A header
    stored with [Header.Set] under any spelling of an allow-listed name, or
    of [X-Ab-TraceID], with a non-empty value, is found by [InjectTrace]
    and ends up, with that value, in the outbound request. *)
Theorem InjectTrace_names_case_insensitive `{MapRange} (c : Context)
    (inbound : Request) (outgoingReq : Request) (w : World)
    (spelling name value : string) :
  debugSafe w (Header outgoingReq) →
  name ∈ TraceIDKey :: forwardHeaders →
  Strings.ToLower spelling = Strings.ToLower name →
  value ≠ "" →
  ∃ r span newCtx w',
    InjectTrace (Some c)
      (Restful.mkRequest (withHeader inbound (Header_Set (Header inbound) spelling value)))
      outgoingReq w
    = Some ((r, Some span, Some newCtx), w')
    ∧ Header r !! CanonicalMIMEHeaderKey name = Some [value]
    ∧ Header_Get (Header r) spelling = value.
Proof.
  intros Hsafe Hname Hlow Hvalue.
  assert (validHeaderField name = true) as Hvalid.
  { unfold forwardHeaders in Hname.
    repeat (apply elem_of_cons in Hname as [->|Hname]; [by vm_compute|]).
    by apply elem_of_nil in Hname. }
  pose proof (canonical_of_lower spelling name Hlow Hvalid) as Hcanon.
  set (inReq := Restful.mkRequest
                  (withHeader inbound (Header_Set (Header inbound) spelling value))).
  assert (Header_Get (Header (Restful.Request_ inReq)) name = value) as Hget.
  { unfold inReq, Header_Get, Header_Set. cbn [Restful.Request_ Header withHeader].
    by rewrite Hcanon, lookup_insert_eq. }
  destruct (InjectTrace_result c inReq outgoingReq w Hsafe) as (w' & Hrun & _).
  eexists _, _, _, _. split; [exact Hrun|]. cbn [Header withHeader].
  assert (outboundHeaders w c (Header (Restful.Request_ inReq)) (Header outgoingReq)
            !! CanonicalMIMEHeaderKey name = Some [value]) as Hout.
  { apply elem_of_cons in Hname as [->|Hname].
    - rewrite outbound_trace_id; rewrite Hget; done.
    - rewrite outbound_forwarded; rewrite ?Hget; done. }
  split; [done|]. unfold Header_Get. by rewrite Hcanon, Hout.
Qed.

(** ** Serialized contexts and setup *)

(** X17. [GetSpanContextString] returns [""] for a nil span and for a span
    whose context is not a jaeger context.  When the string it returns for
    a span parses back to the context of that span, starting a span from
    that string with [ChildSpanFromRemoteSpan] does what [StartChildSpan]
    does on the span itself: the same child, the same process state. *)
Theorem GetSpanContextString_remote_child `{JaegerLib} `{JaegerString} (w : World)
    (sp : Span) (rootCtx : option Context) (name : string) :
  TracergoSetup.GetSpanContextString None w = Some ("", w)
  ∧ (ContextString (SpanCtx (Ot.spanData w sp)) = None →
     TracergoSetup.GetSpanContextString (Some sp) w = Some ("", w))
  ∧ (∀ s,
       ContextString (SpanCtx (Ot.spanData w sp)) = Some s →
       ContextFromString s = inl (SpanCtx (Ot.spanData w sp)) →
       ∃ child w',
         (str ← TracergoSetup.GetSpanContextString (Some sp);
          ChildSpanFromRemoteSpan rootCtx name str) w
           = Some ((Some child, rootCtx), w')
         ∧ StartChildSpan (Some sp) name w = Some (Some child, w')).
Proof.
  split_and!; [done|..].
  - intros Hnone. unfold TracergoSetup.GetSpanContextString, Ot.SpanContextOf.
    run_monad. by rewrite Hnone.
  - intros s Hs Hparse.
    unfold TracergoSetup.GetSpanContextString, ChildSpanFromRemoteSpan, StartChildSpan,
      Ot.SpanContextOf. run_monad. rewrite Hs, Hparse. by eexists _, _.
Qed.


(** ** The further properties at the sample inputs *)

Lemma exInboundTraced_loggable : loggable (Header (Restful.Request_ exInboundTraced)).
Proof.
  unfold exInboundTraced. simpl.
  repeat (apply map_Forall_insert_2; [by right|]). apply map_Forall_empty.
Defined.

Lemma exInboundTraced_extract :
  Extract (GlobalTracer exWorld) (Header (Restful.Request_ exInboundTraced))
  = inl {| TraceID := 31; SpanID := 42; Sampled := true; Baggage := [] |}.
Proof. vm_compute. reflexivity. Defined.

Lemma StartSpan_with_parent_witness :
  Extract (GlobalTracer exWorld) (Header (Restful.Request_ exInboundTraced))
    = inl {| TraceID := 31; SpanID := 42; Sampled := true; Baggage := [] |}
  ∧ debugSafe exWorld (Header (Restful.Request_ exInboundTraced))
  ∧ StartSpanIfParentSpanExist exInboundTraced "GET /healthz" exWorld
    = StartSpan exInboundTraced "GET /healthz" exWorld.
Proof.
  assert (debugSafe exWorld (Header (Restful.Request_ exInboundTraced))) as Hsafe
    by (right; exact exInboundTraced_loggable).
  split; [exact exInboundTraced_extract|]. split; [exact Hsafe|].
  exact (proj1 (StartSpan_with_parent exWorld exInboundTraced "GET /healthz" _
                  exInboundTraced_extract Hsafe)).
Defined.

Lemma StartSpan_tags_witness :
  debugSafe exWorld (Header (Restful.Request_ exInbound))
  ∧ ∃ (span : Span) (d : SpanData) (newCtx : Context) (w' : World),
      StartSpan exInbound "GET /v1/orders" exWorld = Some ((Some span, Some newCtx), w')
      ∧ Spans w' = Spans exWorld ++ [d] ∧ span = length (Spans exWorld)
      ∧ activeSpan newCtx = Some span
      ∧ OperationName d = "GET /v1/orders"
      ∧ Tags d =
          [("http.method", Method (Restful.Request_ exInbound));
           ("http.url", Host (Restful.Request_ exInbound)
                        +:+ RequestURI (Restful.Request_ exInbound))]
          ++ (if bool_decide (Header_Get (Header (Restful.Request_ exInbound)) TraceIDKey ≠ "")
              then [(TraceIDKey, Header_Get (Header (Restful.Request_ exInbound)) TraceIDKey)]
              else [])
      ∧ Logs d = [] ∧ Finished d = 0.
Proof.
  assert (debugSafe exWorld (Header (Restful.Request_ exInbound))) as Hsafe
    by (right; exact exInbound_loggable).
  split; [exact Hsafe|].
  exact (StartSpan_tags exWorld exInbound "GET /v1/orders" Hsafe).
Defined.

Lemma StartSpan_faults_iff_witness :
  debugSafe exWorld (Header (Restful.Request_ exInbound))
  ∧ is_Some (StartSpan exInbound "GET /v1/orders" exWorld).
Proof.
  assert (debugSafe exWorld (Header (Restful.Request_ exInbound))) as Hsafe
    by (right; exact exInbound_loggable).
  split; [exact Hsafe|].
  exact (proj2 (proj1 (StartSpan_faults_iff exWorld exInbound "GET /v1/orders")) Hsafe).
Defined.

(** At debug level a header with no value makes [StartSpan] fault; below
    debug level the same request is served. *)
Example StartSpan_faults_on_empty_values :
  StartSpan exInboundNoValue "GET /v1/orders" exWorld = None
  ∧ is_Some (StartSpan exInboundNoValue "GET /v1/orders" exLiveWorld).
Proof. split; [by vm_compute|]. eexists. by vm_compute. Qed.

Lemma tracing_independent_of_logging_witness :
  debugSafe exWorld (Header (Restful.Request_ exInbound))
  ∧ debugSafe {| GlobalTracer := GlobalTracer exWorld; Spans := Spans exWorld;
                 LogLevel := Logrus.InfoLevel; LogOutput := [] |}
      (Header (Restful.Request_ exInbound))
  ∧ debugSafe exWorld (Header exOutbound)
  ∧ debugSafe {| GlobalTracer := GlobalTracer exWorld; Spans := Spans exWorld;
                 LogLevel := Logrus.InfoLevel; LogOutput := [] |}
      (Header exOutbound)
  ∧ ∃ r w' w2',
      StartSpan exInbound "GET /v1/orders" exWorld = Some (r, w')
      ∧ StartSpan exInbound "GET /v1/orders"
          {| GlobalTracer := GlobalTracer exWorld; Spans := Spans exWorld;
             LogLevel := Logrus.InfoLevel; LogOutput := [] |} = Some (r, w2')
      ∧ Spans w' = Spans w2'.
Proof.
  assert (debugSafe exWorld (Header (Restful.Request_ exInbound))) as H1
    by (right; exact exInbound_loggable).
  assert (debugSafe {| GlobalTracer := GlobalTracer exWorld; Spans := Spans exWorld;
                       LogLevel := Logrus.InfoLevel; LogOutput := [] |}
            (Header (Restful.Request_ exInbound))) as H2
    by (right; exact exInbound_loggable).
  assert (debugSafe exWorld (Header exOutbound)) as H3
    by (right; exact exOutbound_loggable).
  assert (debugSafe {| GlobalTracer := GlobalTracer exWorld; Spans := Spans exWorld;
                       LogLevel := Logrus.InfoLevel; LogOutput := [] |}
            (Header exOutbound)) as H4
    by (right; exact exOutbound_loggable).
  split_and!; [exact H1|exact H2|exact H3|exact H4|].
  exact (proj1 (tracing_independent_of_logging exWorld Logrus.InfoLevel [] exInbound
                  "GET /v1/orders" Background exOutbound H1 H2 H3 H4)).
Defined.

Lemma InjectTrace_span_witness :
  debugSafe exWorld (Header exOutbound)
  ∧ ∃ (r : Request) (span : Span) (d : SpanData) (w' : World),
      InjectTrace (Some Background) exInbound exOutbound exWorld =
        Some ((r, Some span, Some (Ot.ContextWithSpan Background span)), w')
      ∧ Method r = Method exOutbound ∧ Host r = Host exOutbound
      ∧ RequestURI r = RequestURI exOutbound ∧ ReqContext r = ReqContext exOutbound
      ∧ span = length (Spans exWorld) ∧ Spans w' = Spans exWorld ++ [d]
      ∧ GlobalTracer w' = GlobalTracer exWorld
      ∧ OperationName d = "outgoing request"
      ∧ References d = match activeSpan Background with
                       | Some parent => [SpanCtx (Ot.spanData exWorld parent)]
                       | None => []
                       end
      ∧ Tags d = [("http.url", Host exOutbound +:+ RequestURI exOutbound);
                  ("http.method", Method exOutbound)]
      ∧ Logs d = [] ∧ Finished d = 0.
Proof.
  assert (debugSafe exWorld (Header exOutbound)) as Hsafe
    by (right; exact exOutbound_loggable).
  split; [exact Hsafe|].
  exact (InjectTrace_span Background exInbound exOutbound exWorld Hsafe).
Defined.

Lemma exOutbound_no_trace_id (k : string) :
  is_Some (Header exOutbound !! k) → Strings.ToLower k ≠ "x-ab-traceid".
Proof.
  intros [v Hk]. unfold exOutbound in Hk. cbn [Header] in Hk.
  repeat (apply lookup_insert_Some in Hk as [[<- _]|[_ Hk]]; [vm_compute; discriminate|]).
  by rewrite lookup_empty in Hk.
Defined.

Lemma b3_writes_no_trace_id (sc : SpanContext) (kv : string * string) :
  kv ∈ (Inject (GlobalTracer exWorld) sc).1 →
  Strings.ToLower (CanonicalMIMEHeaderKey kv.1) ≠ "x-ab-traceid".
Proof.
  intros Hin. cbn in Hin.
  repeat (apply elem_of_cons in Hin as [->|Hin]; [vm_compute; discriminate|]).
  by apply elem_of_nil in Hin.
Defined.

Lemma InjectTrace_log_precedes_trace_id_witness :
  (Logrus.DebugLevel ≤ LogLevel exWorld)%nat
  ∧ loggable (Header exOutbound)
  ∧ Header_Get (Header (Restful.Request_ exInbound)) TraceIDKey ≠ ""
  ∧ ∃ r span newCtx w' m,
      InjectTrace (Some Background) exInbound exOutbound exWorld
        = Some ((r, span, newCtx), w')
      ∧ LogOutput w' =
          LogOutput exWorld ++
          [mkLogEntry Logrus.DebugLevel [ArgString "outgoing header : "; ArgMap m]]
      ∧ m !! "x-ab-traceid" = None
      ∧ Header_Get (Header r) TraceIDKey =
          Header_Get (Header (Restful.Request_ exInbound)) TraceIDKey.
Proof.
  assert (Logrus.DebugLevel ≤ LogLevel exWorld)%nat as Hlevel by (vm_compute; lia).
  assert (Header_Get (Header (Restful.Request_ exInbound)) TraceIDKey ≠ "") as Hval
    by (vm_compute; discriminate).
  split_and!; [exact Hlevel|exact exOutbound_loggable|exact Hval|].
  exact (InjectTrace_log_precedes_trace_id Background exInbound exOutbound exWorld
           Hlevel exOutbound_loggable Hval exOutbound_no_trace_id b3_writes_no_trace_id).
Defined.

Lemma InjectSpanIntoRequest_frame_witness :
  (∀ kv, kv ∈ (Inject (GlobalTracer exLiveWorld) (SpanCtx (Ot.spanData exLiveWorld 0))).1 →
         CanonicalMIMEHeaderKey kv.1 ≠ "Content-Type")
  ∧ ∃ r : Request,
      InjectSpanIntoRequest (Some 0) exOutbound exLiveWorld =
        Some ((r, (Inject (GlobalTracer exLiveWorld)
                     (SpanCtx (Ot.spanData exLiveWorld 0))).2), exLiveWorld)
      ∧ Header r !! "Content-Type" = Header exOutbound !! "Content-Type".
Proof.
  assert (∀ kv, kv ∈ (Inject (GlobalTracer exLiveWorld)
                        (SpanCtx (Ot.spanData exLiveWorld 0))).1 →
                CanonicalMIMEHeaderKey kv.1 ≠ "Content-Type") as Hother.
  { intros kv Hin. cbn in Hin.
    repeat (apply elem_of_cons in Hin as [->|Hin]; [vm_compute; discriminate|]).
    by apply elem_of_nil in Hin. }
  split; [exact Hother|].
  destruct (proj2 (InjectSpanIntoRequest_frame exLiveWorld 0 exOutbound))
    as (r & Hrun & _ & _ & _ & Hkeep & _).
  exists r. split; [exact Hrun|]. exact (Hkeep "Content-Type" Hother).
Defined.

Lemma trace_continues_across_hop_witness :
  GlobalTracer exLiveWorld = Jaeger.tracer
  ∧ GlobalTracer exWorld = Jaeger.tracer
  ∧ loggable (Header exOutbound)
  ∧ (∀ parent, activeSpan (Ot.ContextWithSpan Background 0) = Some parent →
               TraceID (SpanCtx (Ot.spanData exLiveWorld parent)) ≠ 0%N)
  ∧ ∃ r spanA ctxA wA' spanB ctxB wB' dB parent,
      InjectTrace (Some (Ot.ContextWithSpan Background 0)) exInbound exOutbound exLiveWorld
        = Some ((r, Some spanA, ctxA), wA')
      ∧ StartSpan (Restful.mkRequest r) "POST /v1/charges" exWorld
        = Some ((Some spanB, ctxB), wB')
      ∧ Spans wB' !! spanB = Some dB
      ∧ References dB = [parent]
      ∧ TraceID parent = TraceID (SpanCtx (Ot.spanData wA' spanA))
      ∧ SpanID parent = SpanID (SpanCtx (Ot.spanData wA' spanA))
      ∧ TraceID (SpanCtx dB) = TraceID (SpanCtx (Ot.spanData wA' spanA)).
Proof.
  assert (∀ parent, activeSpan (Ot.ContextWithSpan Background 0) = Some parent →
                    TraceID (SpanCtx (Ot.spanData exLiveWorld parent)) ≠ 0%N) as Hvalid.
  { intros parent [= <-]. vm_compute. discriminate. }
  split_and!; [reflexivity|reflexivity|exact exOutbound_loggable|exact Hvalid|].
  exact (trace_continues_across_hop exLiveWorld exWorld (Ot.ContextWithSpan Background 0)
           exInbound exOutbound "POST /v1/charges" eq_refl eq_refl exOutbound_loggable
           Hvalid).
Defined.

Lemma ChildSpanFromRemoteSpan_context_witness :
  ContextFromString "1f:2a:0:1"
    = inl {| TraceID := 31; SpanID := 42; Sampled := true; Baggage := [] |}
  ∧ (∀ parent, activeSpan (Ot.ContextWithSpan Background 0) = Some parent →
               parent < length (Spans exLiveWorld))
  ∧ ∃ (remote : Span) (w1 : World) (next : Span) (nextCtx : Context) (w2 : World)
      (d : SpanData),
      ChildSpanFromRemoteSpan (Some (Ot.ContextWithSpan Background 0)) "job" "1f:2a:0:1"
        exLiveWorld
        = Some ((Some remote, Some (Ot.ContextWithSpan Background 0)), w1)
      ∧ StartSpanFromContext (Some (Ot.ContextWithSpan Background 0)) "step" w1
        = Some ((Some next, Some nextCtx), w2)
      ∧ Spans w2 !! next = Some d
      ∧ References d = match activeSpan (Ot.ContextWithSpan Background 0) with
                       | Some parent => [SpanCtx (Ot.spanData exLiveWorld parent)]
                       | None => []
                       end
      ∧ activeSpan (Ot.ContextWithSpan Background 0) ≠ Some remote.
Proof.
  assert (ContextFromString "1f:2a:0:1"
          = inl {| TraceID := 31; SpanID := 42; Sampled := true; Baggage := [] |}) as Hparse
    by (vm_compute; reflexivity).
  assert (∀ parent, activeSpan (Ot.ContextWithSpan Background 0) = Some parent →
                    parent < length (Spans exLiveWorld)) as Hlive.
  { intros parent [= <-]. vm_compute. lia. }
  split_and!; [exact Hparse|exact Hlive|].
  exact (ChildSpanFromRemoteSpan_context exLiveWorld (Ot.ContextWithSpan Background 0)
           "job" "1f:2a:0:1" "step" _ Hparse Hlive).
Defined.

Lemma StartChildSpan_baggage_witness :
  Spans exLiveWorld !! 0 = Some (Ot.newSpan Jaeger.tracer 0 "handler" [])
  ∧ ∃ (child : Span) (w' : World) (dc : SpanData) (ref : SpanContext),
      (AddBaggage (Some 0) "tenant" "acme";; StartChildSpan (Some 0) "lookup") exLiveWorld
        = Some (Some child, w')
      ∧ child = length (Spans exLiveWorld)
      ∧ Spans w' =
          <[0 := Ot.addBaggageItem "tenant" "acme" (Ot.newSpan Jaeger.tracer 0 "handler" [])]>
            (Spans exLiveWorld) ++ [dc]
      ∧ OperationName dc = "lookup"
      ∧ References dc = [ref]
      ∧ TraceID ref = TraceID (SpanCtx (Ot.newSpan Jaeger.tracer 0 "handler" []))
      ∧ SpanID ref = SpanID (SpanCtx (Ot.newSpan Jaeger.tracer 0 "handler" []))
      ∧ Baggage ref = Baggage (SpanCtx (Ot.newSpan Jaeger.tracer 0 "handler" []))
                      ++ [("tenant", "acme")]
      ∧ Tags dc = [] ∧ Logs dc = [] ∧ Finished dc = 0.
Proof.
  split; [reflexivity|].
  exact (proj2 (StartChildSpan_baggage exLiveWorld 0 _ "tenant" "acme" "lookup" eq_refl)).
Defined.

Lemma facade_touches_one_span_witness :
  Finish (Some 0) ∈ facadeOps 0 "k" "v" "SELECT 1" None
  ∧ ∃ w', Finish (Some 0) exLiveWorld = Some (tt, w') ∧ onlySpanTouched 0 exLiveWorld w'.
Proof.
  assert (Finish (Some 0) ∈ facadeOps 0 "k" "v" "SELECT 1" None) as Hop
    by (unfold facadeOps; do 3 right; left).
  split; [exact Hop|].
  exact (facade_touches_one_span exLiveWorld 0 "k" "v" "SELECT 1" None _ Hop).
Defined.

Lemma TraceSQLQuery_and_Finish_witness :
  Spans exLiveWorld !! 0 = Some (Ot.newSpan Jaeger.tracer 0 "handler" [])
  ∧ "SELECT 1" ≠ ""
  ∧ TraceSQLQuery (Some 0) "SELECT 1" exLiveWorld =
      Some (tt, withSpans exLiveWorld
                  (<[0 := {| OperationName := "handler"; References := [];
                             SpanCtx := {| TraceID := 1; SpanID := 1; Sampled := true;
                                           Baggage := [] |};
                             Tags := []; Logs := [[("SQL", "SELECT 1")]];
                             Finished := 0 |}]> (Spans exLiveWorld))).
Proof.
  assert ("SELECT 1" ≠ "") as Hq by discriminate.
  split_and!; [reflexivity|exact Hq|].
  exact (proj1 (TraceSQLQuery_and_Finish exLiveWorld 0 _ "SELECT 1" eq_refl Hq)).
Defined.

Lemma GetSpanFromRestfulContext_cases_witness :
  restfulSpan {| activeSpan := None; restfulSpan := Some 0 |} = Some 0
  ∧ GetSpanFromRestfulContext (Some {| activeSpan := None; restfulSpan := Some 0 |})
      exLiveWorld = Some (Some 0, exLiveWorld).
Proof.
  split; [reflexivity|].
  exact (proj1 (proj2 (GetSpanFromRestfulContext_cases exLiveWorld
                         {| activeSpan := None; restfulSpan := Some 0 |})) 0 eq_refl).
Defined.

Lemma exOutbound_names_distinct (k k' : string) :
  is_Some (Header exOutbound !! k) → is_Some (Header exOutbound !! k') →
  Strings.ToLower k = Strings.ToLower k' → k = k'.
Proof.
  intros [v Hk] [v' Hk'] Hlow. unfold exOutbound in Hk, Hk'. cbn [Header] in Hk, Hk'.
  apply lookup_insert_Some in Hk as [[<- _]|[_ Hk]];
    [|apply lookup_insert_Some in Hk as [[<- _]|[_ Hk]];
      [|by rewrite lookup_empty in Hk]];
    (apply lookup_insert_Some in Hk' as [[<- _]|[_ Hk']];
     [|apply lookup_insert_Some in Hk' as [[<- _]|[_ Hk']];
       [|by rewrite lookup_empty in Hk']]);
    first [reflexivity | vm_compute in Hlow; discriminate Hlow].
Defined.

Lemma redactLoop_order_independent_witness :
  (∀ k k', is_Some (Header exOutbound !! k) → is_Some (Header exOutbound !! k') →
           Strings.ToLower k = Strings.ToLower k' → k = k')
  ∧ redactLoop (@rangeOf mapRangeDefault (Header exOutbound)) ∅
    = redactLoop (@rangeOf mapRangeReverse (Header exOutbound)) ∅.
Proof.
  split; [exact exOutbound_names_distinct|].
  exact (redactLoop_order_independent mapRangeDefault mapRangeReverse (Header exOutbound)
           exOutbound_names_distinct).
Defined.

Lemma InjectTrace_names_case_insensitive_witness :
  debugSafe exWorld (Header exOutbound)
  ∧ "x-request-id" ∈ TraceIDKey :: forwardHeaders
  ∧ Strings.ToLower "X-REQUEST-ID" = Strings.ToLower "x-request-id"
  ∧ "r-77" ≠ ""
  ∧ ∃ r span newCtx w',
      InjectTrace (Some Background)
        (Restful.mkRequest
           (withHeader (Restful.Request_ exInboundEmpty)
              (Header_Set (Header (Restful.Request_ exInboundEmpty)) "X-REQUEST-ID" "r-77")))
        exOutbound exWorld
      = Some ((r, Some span, Some newCtx), w')
      ∧ Header r !! CanonicalMIMEHeaderKey "x-request-id" = Some ["r-77"]
      ∧ Header_Get (Header r) "X-REQUEST-ID" = "r-77".
Proof.
  assert (debugSafe exWorld (Header exOutbound)) as Hsafe
    by (right; exact exOutbound_loggable).
  assert ("x-request-id" ∈ TraceIDKey :: forwardHeaders) as Hin
    by (unfold forwardHeaders; right; left).
  assert (Strings.ToLower "X-REQUEST-ID" = Strings.ToLower "x-request-id") as Hlow
    by (vm_compute; reflexivity).
  assert ("r-77" ≠ "") as Hv by discriminate.
  split_and!; [exact Hsafe|exact Hin|exact Hlow|exact Hv|].
  exact (InjectTrace_names_case_insensitive Background (Restful.Request_ exInboundEmpty)
           exOutbound exWorld "X-REQUEST-ID" "x-request-id" "r-77" Hsafe Hin Hlow Hv).
Defined.

Lemma GetSpanContextString_remote_child_witness :
  ContextString (SpanCtx (Ot.spanData exLiveWorld 0)) = Some "1:1:0:1"
  ∧ ContextFromString "1:1:0:1" = inl (SpanCtx (Ot.spanData exLiveWorld 0))
  ∧ ∃ child w',
      (str ← TracergoSetup.GetSpanContextString (Some 0);
       ChildSpanFromRemoteSpan None "job" str) exLiveWorld
        = Some ((Some child, None), w')
      ∧ StartChildSpan (Some 0) "job" exLiveWorld = Some (Some child, w').
Proof.
  assert (ContextString (SpanCtx (Ot.spanData exLiveWorld 0)) = Some "1:1:0:1") as Hs
    by (vm_compute; reflexivity).
  assert (ContextFromString "1:1:0:1" = inl (SpanCtx (Ot.spanData exLiveWorld 0))) as Hp
    by (vm_compute; reflexivity).
  split_and!; [exact Hs|exact Hp|].
  exact (proj2 (proj2 (GetSpanContextString_remote_child exLiveWorld 0 None "job"))
           "1:1:0:1" Hs Hp).
Defined.


(** The three ways to configure the reporter. *)
Example InitGlobalTracer_modes :
  (∃ closer w', @TracergoSetup.InitGlobalTracer udpAlwaysUp "" "" "orders" "eu" exWorld
                  = Some (closer, w')
                ∧ TracergoSetup.TracerReporter closer = TracergoSetup.NullReporter)
  ∧ (∃ closer w',
       @TracergoSetup.InitGlobalTracer udpAlwaysDown "jaeger-agent:6831"
         "http://collector:14268/api/traces" "orders" "eu" exWorld = Some (closer, w')
       ∧ TracergoSetup.TracerReporter closer =
           TracergoSetup.RemoteReporter
             (Some (TracergoSetup.HTTPTransport "http://collector:14268/api/traces")) 1
       ∧ LogOutput w' =
           [mkLogEntry Logrus.InfoLevel
              [ArgString "Jaeger client configured to use the collector: http://collector:14268/api/traces"]])
  ∧ (∃ closer w',
       @TracergoSetup.InitGlobalTracer udpAlwaysUp "jaeger-agent:6831" "" "orders" "eu"
         exWorld = Some (closer, w')
       ∧ TracergoSetup.TracerReporter closer =
           TracergoSetup.RemoteReporter
             (Some (TracergoSetup.UDPTransport "jaeger-agent:6831")) 1).
Proof. split_and!; eexists _, _; by vm_compute. Qed.
